(** * RepairAll: the guide orchestrator and the presentation shell

    A shallow embedding of [src/services/geminiService.ts]
    ([generateRepairGuide]) and of the event handlers and the conditional
    rendering of [src/App.tsx], followed by the properties the specification
    states about them.

    The remote services, [FileReader], [JSON.parse] and
    [URL.createObjectURL] are platform code: they are fields of an
    environment record, and every theorem quantifies over the environment.
    Asynchronous code is sequential here: each [await] resumes with the
    completion of the awaited call, and the calls made on the way are
    recorded, in order, in a trace of events. *)

From Stdlib Require Import ZArith NArith QArith Qround Qabs String Ascii List Lia.
From stdpp Require Import base list strings pretty.
Import ListNotations.

Local Open Scope string_scope.
Local Open Scope list_scope.

(** ** JavaScript values and completions *)

Module Js.

(** Strings are sequences of bytes, the UTF-8 encoding of the text. *)

(** A number is an IEEE 754 double, kept by its value: [Finite m e] is
    [m * 2^e] with [m] odd (or [m = 0] and [e = 0]), [|m| < 2^53],
    [-1074 <= e] and [|m| * 2^e < 2^1024]; [Infinite] is what [JSON.parse]
    gives for a literal beyond the range. The sign of zero is not kept: it shows in no
    operation of the program. *)
Inductive number : Type :=
| Finite (m e : Z)
| Infinite (negative : bool).

Fixpoint trailing_zeros (p : positive) : Z :=
  match p with
  | xO p' => 1 + trailing_zeros p'
  | _ => 0
  end.

(** The odd mantissa and the exponent of [m * 2^e]. *)
Definition reduce (m e : Z) : number :=
  match m with
  | Z0 => Finite 0 0
  | Zpos p => Finite (m / 2 ^ trailing_zeros p) (e + trailing_zeros p)
  | Zneg p => Finite (m / 2 ^ trailing_zeros p) (e + trailing_zeros p)
  end.

Definition bits (a : Z) : Z := Z.log2 a + 1.

(** The double nearest to an integer, ties to the even mantissa: the
    number an integer literal denotes. *)
Definition of_Z (z : Z) : number :=
  let a := Z.abs z in
  let b := bits a in
  if (b <=? 53)%Z then reduce z 0
  else
    let e := (b - 53)%Z in
    let q := (a / 2 ^ e)%Z in
    let r := (a mod 2 ^ e)%Z in
    let half := (2 ^ (e - 1))%Z in
    let q' := if (half <? r)%Z || ((r =? half)%Z && Z.odd q) then (q + 1)%Z else q in
    if (2 ^ 1024 <=? q' * 2 ^ e)%Z then Infinite (z <? 0)%Z
    else reduce (Z.sgn z * q') e.

(** The 53-bit mantissa [q] and the exponent [p] of the positive double
    [a * 2^e], with [p = -1074] for a subnormal. *)
Definition parts (a e : Z) : Z * Z :=
  let shift := (53 - bits a)%Z in
  if (e - shift <? -1074)%Z then ((a * 2 ^ (e + 1074))%Z, (-1074)%Z)
  else ((a * 2 ^ shift)%Z, (e - shift)%Z).

Definition pow2 (e : Z) : Q := Qpower (2 # 1) e.
Definition pow10 (e : Z) : Q := Qpower (10 # 1) e.

Definition Qltb (x y : Q) : bool := negb (Qle_bool y x).

(** Whether the real [v] rounds to the double [q * 2^p]. *)
Definition rounds_to (q p : Z) (v : Q) : bool :=
  let x := (inject_Z q * pow2 p)%Q in
  let above := pow2 (p - 1) in
  let below := if (q =? 2 ^ 52)%Z && (-1074 <? p)%Z then pow2 (p - 2) else pow2 (p - 1) in
  if Z.even q then Qle_bool (x - below) v && Qle_bool v (x + above)
  else Qltb (x - below) v && Qltb v (x + above).

Definition decimal_length (z : Z) : Z := Z.of_nat (String.length (pretty z)).

(** The [n] with [10^(n-1) <= x < 10^n], for a positive dyadic [x]. *)
Definition decimal_exponent (x : Q) : Z :=
  if Qle_bool 1 x then decimal_length (Qfloor x)
  else (1 - decimal_length (Qfloor (/ x)))%Z.

Definition Qdist (x y : Q) : Q := Qabs (x - y).

(** The digit strings of [k] digits that round to the double, each with
    its decimal exponent: the two multiples of [10^(n-k)] around [x], and
    for one digit also [10^n]. *)
Definition candidates (q p : Z) (n k : Z) : list (Z * Z) :=
  let x := (inject_Z q * pow2 p)%Q in
  let s := Qfloor (x / pow10 (n - k)) in
  let ok (c : Z * Z) : bool :=
    (10 ^ (k - 1) <=? c.1)%Z && (c.1 <? 10 ^ k)%Z
    && rounds_to q p (inject_Z c.1 * pow10 (c.2 - k)) in
  List.filter ok
    ([(s, n); ((s + 1)%Z, n)] ++ (if (k =? 1)%Z then [(1%Z, (n + 1)%Z)] else [])).

(** The candidate nearest to [x], the even one of two at the same
    distance. *)
Definition nearest (x : Q) (k : Z) (cs : list (Z * Z)) : option (Z * Z) :=
  let value (c : Z * Z) : Q := (inject_Z c.1 * pow10 (c.2 - k))%Q in
  let better (c d : Z * Z) : bool :=
    Qltb (Qdist (value c) x) (Qdist (value d) x)
    || (Qeq_bool (Qdist (value c) x) (Qdist (value d) x) && Z.even c.1) in
  List.fold_left
    (fun best c =>
       match best with
       | None => Some c
       | Some b => if better c b then Some c else Some b
       end) cs None.

(** The shortest digits [s], their number [k] and the exponent [n] of the
    double, as [Number::toString] chooses them. *)
Fixpoint shortest (q p n : Z) (ks : list Z) : option (Z * Z * Z) :=
  match ks with
  | [] => None
  | k :: ks' =>
      match nearest (inject_Z q * pow2 p) k (candidates q p n k) with
      | Some (s, n') => Some (s, k, n')
      | None => shortest q p n ks'
      end
  end.

Fixpoint zeros (n : nat) : string :=
  match n with
  | O => EmptyString
  | S n' => String "0" (zeros n')
  end.

Definition take_string (n : nat) (s : string) : string := String.substring 0 n s.
Definition drop_string (n : nat) (s : string) : string :=
  String.substring n (String.length s - n) s.

(** Steps 5 to 10 of [Number::toString]. *)
Definition layout (s k n : Z) : string :=
  let digits := pretty s in
  if (k <=? n)%Z && (n <=? 21)%Z then digits +:+ zeros (Z.to_nat (n - k))
  else if (0 <? n)%Z && (n <=? 21)%Z then
    take_string (Z.to_nat n) digits +:+ "." +:+ drop_string (Z.to_nat n) digits
  else if (-6 <? n)%Z && (n <=? 0)%Z then
    "0." +:+ zeros (Z.to_nat (- n)) +:+ digits
  else
    let exponent :=
      (if (0 <=? n - 1)%Z then "+" else "-") +:+ pretty (Z.abs (n - 1)) in
    if (k =? 1)%Z then digits +:+ "e" +:+ exponent
    else take_string 1 digits +:+ "." +:+ drop_string 1 digits +:+ "e" +:+ exponent.

(** [Number::toString] in radix 10. *)
Definition Number_toString (x : number) : string :=
  match x with
  | Infinite false => "Infinity"
  | Infinite true => "-Infinity"
  | Finite 0 _ => "0"
  | Finite m e =>
      let (q, p) := parts (Z.abs m) e in
      let n := decimal_exponent (inject_Z q * pow2 p) in
      let text :=
        match shortest q p n (map Z.of_nat (seq 1 17)) with
        | Some (s, k, n') => layout s k n'
        | None => "NaN"
        end in
      if (m <? 0)%Z then "-" +:+ text else text
  end.

Coercion of_Z : Z >-> number.

(** The values [JSON.parse] produces; an object is the list of its own
    properties, looked up by key. *)
#[warnings="-register-all"] Inductive json : Type :=
| JNull
| JBool (b : bool)
| JNum (x : number)
| JStr (s : string)
| JArr (items : list json)
| JObj (fields : list (string * json)).

(** A value read from a property: [None] is [undefined]. *)
Definition jsval : Type := option json.
Definition undefined : jsval := None.

(** What a [throw] carries. [Error] and [TypeError] are instances of the
    JavaScript [Error] class and have a [message]; [NonError] is any other
    thrown or rejected value (the [ProgressEvent] of [reader.onerror]). *)
Inductive exn : Type :=
| Error (message : string)
| TypeError (message : string)
| NonError.

Inductive completion (A : Type) : Type :=
| Return (a : A)
| Throw (e : exn).
Arguments JNum x%_Z.
Arguments Return {A} a.
Arguments Throw {A} e.

Fixpoint assoc (key : string) (fields : list (string * json)) : jsval :=
  match fields with
  | [] => undefined
  | (k, v) :: rest => if String.eqb k key then Some v else assoc key rest
  end.

(** [v.key] for one of the keys the program reads ([steps],
    [safetyWarning], [stepNumber], [description], [imagePrompt]): reading
    a property of [null] throws, an object gives its own property, every
    other value gives [undefined]. *)
Definition get (v : json) (key : string) : completion jsval :=
  match v with
  | JNull =>
      Throw (TypeError ("Cannot read properties of null (reading '" +:+ key +:+ "')"))
  | JObj fields => Return (assoc key fields)
  | _ => Return undefined
  end.

(** [`${v}`] on a parsed value. An array joins its elements with commas,
    [null] elements giving the empty string; an object gives
    [[object Object]] unless an own [toString] property, which cannot be a
    function, hides the inherited one, in which case the conversion
    throws ([None]). *)
Fixpoint ToString (v : json) : option string :=
  match v with
  | JNull => Some "null"
  | JBool true => Some "true"
  | JBool false => Some "false"
  | JNum x => Some (Number_toString x)
  | JStr s => Some s
  | JArr items =>
      let element (x : json) : option string :=
        match x with
        | JNull => Some ""
        | _ => ToString x
        end in
      (fix join (l : list json) : option string :=
         match l with
         | [] => Some ""
         | [x] => element x
         | x :: rest =>
             match element x, join rest with
             | Some a, Some b => Some (a +:+ "," +:+ b)
             | _, _ => None
             end
         end) items
  | JObj fields =>
      match assoc "toString" fields with
      | Some _ => None
      | None => Some "[object Object]"
      end
  end.

Definition ToString_val (v : jsval) : option string :=
  match v with
  | None => Some "undefined"
  | Some j => ToString j
  end.

(** [!s] is false exactly for a non-empty string. *)
Definition truthy (s : option string) : bool :=
  match s with
  | Some (String _ _) => true
  | _ => false
  end.

Definition code (c : ascii) : nat := nat_of_ascii c.

(** The white space and line terminators of one byte: U+0009 to U+000D
    and U+0020. *)
Definition is_whitespace (c : ascii) : bool :=
  let n := code c in
  (Nat.leb 9 n && Nat.leb n 13) || Nat.eqb n 32.

(** U+00A0, encoded on two bytes. *)
Definition is_whitespace2 (a b : ascii) : bool :=
  Nat.eqb (code a) 194 && Nat.eqb (code b) 160.

(** Those encoded on three bytes: U+1680, U+2000 to U+200A, U+2028,
    U+2029, U+202F, U+205F, U+3000 and U+FEFF. *)
Definition is_whitespace3 (a b c : ascii) : bool :=
  let x := code a in
  let y := code b in
  let z := code c in
  (Nat.eqb x 225 && Nat.eqb y 154 && Nat.eqb z 128)
  || (Nat.eqb x 226 && Nat.eqb y 128
      && ((Nat.leb 128 z && Nat.leb z 138) || Nat.eqb z 168 || Nat.eqb z 169
          || Nat.eqb z 175))
  || (Nat.eqb x 226 && Nat.eqb y 129 && Nat.eqb z 159)
  || (Nat.eqb x 227 && Nat.eqb y 128 && Nat.eqb z 128)
  || (Nat.eqb x 239 && Nat.eqb y 187 && Nat.eqb z 191).

(** [s.trimStart()]: the white space and the line terminators at the head
    are removed. *)
Fixpoint trimStart (s : string) : string :=
  match s with
  | EmptyString => EmptyString
  | String a r1 =>
      if is_whitespace a then trimStart r1
      else
        match r1 with
        | EmptyString => s
        | String b r2 =>
            if is_whitespace2 a b then trimStart r2
            else
              match r2 with
              | EmptyString => s
              | String c r3 => if is_whitespace3 a b c then trimStart r3 else s
              end
        end
  end.

(** [s.trimEnd()]: what is left from some byte on is dropped when it is
    white space only. A byte inside an encoded character starts no white
    space, so only whole characters are dropped. *)
Fixpoint trimEnd (s : string) : string :=
  match s with
  | EmptyString => EmptyString
  | String c rest =>
      match trimStart s with
      | EmptyString => EmptyString
      | _ => String c (trimEnd rest)
      end
  end.

(** [s.trim()]. *)
Definition trim (s : string) : string := trimEnd (trimStart s).

(** [s.split(sep)] for a one-character separator. *)
Fixpoint split (sep : ascii) (s : string) : list string :=
  match s with
  | EmptyString => [EmptyString]
  | String c rest =>
      if Ascii.eqb c sep then EmptyString :: split sep rest
      else match split sep rest with
           | [] => [String c EmptyString]
           | h :: t => String c h :: t
           end
  end.

End Js.

Import Js.

(** ** The guide orchestrator: [src/services/geminiService.ts] *)

Module geminiService.

(** The browser's [File]: the two properties the program reads. *)
Record File : Type := {
  size : N;
  type : string
}.

(** The request of the planning call: the inline image and the prompt. The
    prompt is a fixed instruction text around the problem description; the
    description stands for it. The model name and the response schema are
    constants of the call. *)
Record ContentRequest : Type := {
  mimeType : string;
  data : option string;
  planningPrompt : string
}.

(** [config] of the image call. *)
Record ImagesConfig : Type := {
  numberOfImages : nat;
  outputMimeType : string;
  aspectRatio : string
}.

Record ImagesRequest : Type := {
  prompt : jsval;
  config : ImagesConfig
}.

(** The response of the image call, with the optional fields of the SDK. *)
Record Image : Type := { imageBytes : option string }.
Record GeneratedImage : Type := { image : option Image }.
Record ImagesResponse : Type := { generatedImages : option (list GeneratedImage) }.

(** The platform and the two remote services. [readAsDataURL] is [None]
    when the reader fires [onerror]; [generateContent] gives the [text] of
    the planning response, [None] when the response has none; [JSON_parse]
    is [None] when [JSON.parse] throws; [generateImages k] answers the
    request number [k] (from 0) of one invocation. *)
Record Env : Type := {
  API_KEY : option string;
  readAsDataURL : File -> option string;
  generateContent : ContentRequest -> completion (option string);
  JSON_parse : string -> option json;
  generateImages : nat -> ImagesRequest -> completion ImagesResponse
}.

(** What an invocation does that the outside can observe, in order. *)
Inductive event : Type :=
| updateLoadingMessage (message : string)
| FileRead (file : File) (result : option string)
| GenerateContent (request : ContentRequest) (response : completion (option string))
| ConsoleError (label : string) (payload : string)
| GenerateImages (request : ImagesRequest) (response : completion ImagesResponse).

(** Computations: the events so far and how the computation completed. *)
Definition M (A : Type) : Type := list event * completion A.

Definition ret {A : Type} (a : A) : M A := ([], Return a).
Definition throw {A : Type} (e : exn) : M A := ([], Throw e).
Definition emit (e : event) : M unit := ([e], Return tt).
Definition lift {A : Type} (c : completion A) : M A := ([], c).

Definition bind {A B : Type} (m : M A) (k : A -> M B) : M B :=
  match m with
  | (log, Return a) => let (log', r) := k a in (log ++ log', r)
  | (log, Throw e) => (log, Throw e)
  end.

Notation "x <- m ;; k" := (bind m (fun x => k))
  (at level 100, m at next level, right associativity).
Notation "m ;; k" := (bind m (fun _ => k))
  (at level 100, right associativity).

(** The objects built at lines 180 to 184 and 188 to 191. Their fields hold
    what was read from the plan, whatever it is: the types declared for
    them do not exist at run time. *)
Record TutorialStep : Type := {
  stepNumber : jsval;
  description : jsval;
  imageUrl : string
}.

Record RepairGuide : Type := {
  safetyWarning : jsval;
  steps : list TutorialStep
}.

(** [fileToBase64]: the part of the data URL after the first comma. *)
Definition fileToBase64 (env : Env) (file : File) : M (option string) :=
  let result := readAsDataURL env file in
  emit (FileRead file result) ;;
  match result with
  | Some url => ret (nth_error (split "," url) 1)
  | None => throw NonError
  end.

Definition getMimeType (file : File) : string := type file.

Definition analyzing_message : string :=
  "Analyzing item and planning repair...".

Definition generating_message (i N : nat) : string :=
  "Generating image for step " +:+ pretty i +:+ " of " +:+ pretty N +:+ "...".

Definition unexpected_format_message : string :=
  "The AI returned an unexpected format. Please try again.".

Definition api_key_message : string :=
  "API_KEY environment variable is not set.".

Definition image_config : ImagesConfig :=
  {| numberOfImages := 1; outputMimeType := "image/jpeg"; aspectRatio := "4:3" |}.

(** [`${v}`] inside the orchestrator. *)
Definition template (v : jsval) : M string :=
  match ToString_val v with
  | Some s => ret s
  | None => throw (TypeError "Cannot convert object to primitive value")
  end.

(** [plan.steps.entries()]: only an array has the method. *)
Definition entries (v : jsval) : M (list json) :=
  match v with
  | None => throw (TypeError "Cannot read properties of undefined (reading 'entries')")
  | Some JNull => throw (TypeError "Cannot read properties of null (reading 'entries')")
  | Some (JArr items) => ret items
  | Some _ =>
      throw (TypeError
               "plan.steps.entries is not a function or its return value is not iterable")
  end.

(** The body of the [for ... of] loop, from position [index] on, [length]
    being [plan.steps.length] and [generatedSteps] the steps pushed so
    far. Every earlier iteration made one request to the image service, so
    the request of this iteration is number [index]. *)
Fixpoint image_loop (env : Env) (length index : nat) (rest : list json)
    (generatedSteps : list TutorialStep) : M (list TutorialStep) :=
  match rest with
  | [] => ret generatedSteps
  | step :: rest' =>
      emit (updateLoadingMessage (generating_message (index + 1) length)) ;;
      imagePrompt <- lift (get step "imagePrompt") ;;
      let request := {| prompt := imagePrompt; config := image_config |} in
      let outcome := generateImages env index request in
      emit (GenerateImages request outcome) ;;
      imageGenerationResponse <- lift outcome ;;
      match generatedImages imageGenerationResponse with
      | None | Some [] =>
          n <- lift (get step "stepNumber") ;;
          s <- template n ;;
          throw (Error ("Failed to generate an image for step " +:+ s +:+ "."))
      | Some (first :: _) =>
          match image first with
          | None =>
              throw (TypeError "Cannot read properties of undefined (reading 'imageBytes')")
          | Some img =>
              let base64ImageData := imageBytes img in
              let imageUrl := "data:image/jpeg;base64," +:+
                match base64ImageData with
                | Some b => b
                | None => "undefined"
                end in
              n <- lift (get step "stepNumber") ;;
              d <- lift (get step "description") ;;
              image_loop env length (S index) rest'
                (generatedSteps ++
                   [{| stepNumber := n; description := d; imageUrl := imageUrl |}])
          end
      end
  end.

(** [generateRepairGuide], the third argument being the [emit] of
    [updateLoadingMessage]. *)
Definition generateRepairGuide (env : Env) (problemDescription : string)
    (imageFile : File) : M RepairGuide :=
  if negb (truthy (API_KEY env)) then throw (Error api_key_message)
  else
    emit (updateLoadingMessage analyzing_message) ;;
    base64Image <- fileToBase64 env imageFile ;;
    let mimeType := getMimeType imageFile in
    let request :=
      {| mimeType := mimeType; data := base64Image;
         planningPrompt := problemDescription |} in
    let outcome := generateContent env request in
    emit (GenerateContent request outcome) ;;
    text <- lift outcome ;;
    jsonString <-
      match text with
      | Some t => ret (trim t)
      | None => throw (TypeError "Cannot read properties of undefined (reading 'trim')")
      end ;;
    plan <-
      match JSON_parse env jsonString with
      | Some p => ret p
      | None =>
          emit (ConsoleError "Failed to parse JSON from planning model:" jsonString) ;;
          throw (Error unexpected_format_message)
      end ;;
    planSteps <- lift (get plan "steps") ;;
    items <- entries planSteps ;;
    generatedSteps <- image_loop env (length items) 0 items [] ;;
    warning <- lift (get plan "safetyWarning") ;;
    ret {| safetyWarning := warning; steps := generatedSteps |}.

End geminiService.

(** ** The presentation shell: [src/App.tsx] *)

Module App.

Import geminiService.

(** What the shell reads from [useAuth0()]. *)
Record Auth0 : Type := {
  isAuthenticated : bool;
  isAuthLoading : bool
}.

(** The [useState] slots of [App], and the [value] of the file input behind
    [fileInputRef] ([None] while the input is not mounted). *)
Record State : Type := {
  problemDescription : string;
  imageFile : option File;
  previewUrl : option string;
  guide : option RepairGuide;
  isLoading : bool;
  loadingMessage : string;
  error : option string;
  fileInputRef : option string
}.

(** The initial values given to [useState]. *)
Definition initial : State :=
  {| problemDescription := ""; imageFile := None; previewUrl := None;
     guide := None; isLoading := false; loadingMessage := ""; error := None;
     fileInputRef := None |}.

Definition setProblemDescription (v : string) (s : State) : State :=
  {| problemDescription := v; imageFile := imageFile s;
     previewUrl := previewUrl s; guide := guide s; isLoading := isLoading s;
     loadingMessage := loadingMessage s; error := error s;
     fileInputRef := fileInputRef s |}.

Definition setImageFile (v : option File) (s : State) : State :=
  {| problemDescription := problemDescription s; imageFile := v;
     previewUrl := previewUrl s; guide := guide s; isLoading := isLoading s;
     loadingMessage := loadingMessage s; error := error s;
     fileInputRef := fileInputRef s |}.

Definition setPreviewUrl (v : option string) (s : State) : State :=
  {| problemDescription := problemDescription s; imageFile := imageFile s;
     previewUrl := v; guide := guide s; isLoading := isLoading s;
     loadingMessage := loadingMessage s; error := error s;
     fileInputRef := fileInputRef s |}.

Definition setGuide (v : option RepairGuide) (s : State) : State :=
  {| problemDescription := problemDescription s; imageFile := imageFile s;
     previewUrl := previewUrl s; guide := v; isLoading := isLoading s;
     loadingMessage := loadingMessage s; error := error s;
     fileInputRef := fileInputRef s |}.

Definition setIsLoading (v : bool) (s : State) : State :=
  {| problemDescription := problemDescription s; imageFile := imageFile s;
     previewUrl := previewUrl s; guide := guide s; isLoading := v;
     loadingMessage := loadingMessage s; error := error s;
     fileInputRef := fileInputRef s |}.

Definition setLoadingMessage (v : string) (s : State) : State :=
  {| problemDescription := problemDescription s; imageFile := imageFile s;
     previewUrl := previewUrl s; guide := guide s; isLoading := isLoading s;
     loadingMessage := v; error := error s;
     fileInputRef := fileInputRef s |}.

Definition setError (v : option string) (s : State) : State :=
  {| problemDescription := problemDescription s; imageFile := imageFile s;
     previewUrl := previewUrl s; guide := guide s; isLoading := isLoading s;
     loadingMessage := loadingMessage s; error := v;
     fileInputRef := fileInputRef s |}.

Definition clearFileInput (s : State) : State :=
  {| problemDescription := problemDescription s; imageFile := imageFile s;
     previewUrl := previewUrl s; guide := guide s; isLoading := isLoading s;
     loadingMessage := loadingMessage s; error := error s;
     fileInputRef :=
       match fileInputRef s with
       | Some _ => Some ""
       | None => None
       end |}.

Definition setFileInput (v : option string) (s : State) : State :=
  {| problemDescription := problemDescription s; imageFile := imageFile s;
     previewUrl := previewUrl s; guide := guide s; isLoading := isLoading s;
     loadingMessage := loadingMessage s; error := error s;
     fileInputRef := v |}.

(** The file input is inside the form block, which is rendered while
    there is no guide and nothing is loading (lines 221 and 283 to 289).
    When a state takes the block away the ref is null, and a block that
    comes back has a new input, which is empty. *)
Definition unmounted (s : State) : State := setFileInput None s.

Definition remounted (s : State) : State :=
  setFileInput
    match guide s, isLoading s with
    | None, false => Some ""
    | _, _ => None
    end s.

Definition too_large_message : string :=
  "Image file is too large. Please select a file under 4MB.".

Definition missing_input_message : string :=
  "Please provide a description and an image.".

Definition starting_message : string :=
  "Starting the repair guide generation...".

Definition unknown_error_message : string :=
  "An unknown error occurred.".

(** [error instanceof Error ? error.message : "An unknown error occurred."] *)
Definition display (e : exn) : string :=
  match e with
  | Error message => message
  | TypeError message => message
  | NonError => unknown_error_message
  end.

(** The states [setLoadingMessage], handed to the orchestrator as its
    callback, goes through while the orchestrator runs. *)
Fixpoint progress (log : list event) (s : State) : list State :=
  match log with
  | [] => []
  | updateLoadingMessage message :: log' =>
      let s' := setLoadingMessage message s in
      s' :: progress log' s'
  | _ :: log' => progress log' s
  end.

Section Handlers.

Variable createObjectURL : File -> string.
Variable env : Env.

(** [handleFileChange], on [event.target.files?.[0]]. *)
Definition handleFileChange (file : option File) (s : State) : State :=
  match file with
  | Some file =>
      if (4 * 1024 * 1024 <? size file)%N then
        setError (Some too_large_message) s
      else
        setError None
          (setPreviewUrl (Some (createObjectURL file))
             (setImageFile (Some file) s))
  | None => s
  end.

(** [handleGenerateGuide]: the successive states of the shell, that is the
    state when [generateRepairGuide] is called, the state after each
    progress message, and last the state after the [finally] block. When
    the validation fails there is the one state with the error. The
    loading flag takes the form block away for the time of the run, and
    the file input with it; the last state brings the block back unless it
    holds a guide. *)
Definition handleGenerateGuide (s : State) : list State :=
  match problemDescription s, imageFile s with
  | String _ _, Some file =>
      let started :=
        unmounted
          (setLoadingMessage starting_message
             (setGuide None (setIsLoading true (setError None s)))) in
      let (log, outcome) := generateRepairGuide env (problemDescription s) file in
      let running := progress log started in
      let settled :=
        match outcome with
        | Return result => setGuide (Some result) (List.last running started)
        | Throw e => setError (Some (display e)) (List.last running started)
        end in
      started
      :: running ++ [remounted (setLoadingMessage "" (setIsLoading false settled))]
  | _, _ => [setError (Some missing_input_message) s]
  end.

(** The state the handler leaves the shell in. *)
Definition after_generate (s : State) : State :=
  List.last (handleGenerateGuide s) s.

End Handlers.

(** [handleReset]. *)
Definition handleReset (s : State) : State :=
  clearFileInput
    (setError None
       (setGuide None
          (setPreviewUrl None
             (setImageFile None (setProblemDescription "" s))))).

(** What [App] returns: the spinner of the identity provider, the login
    screen, or the main page with its three conditional blocks. *)
Inductive View : Type :=
| AuthGate
| LoggedOut
| Main (form spinner result : bool).

Definition Form : View := Main true false false.
Definition Loading : View := Main false true false.
Definition Result : View := Main false false true.

Definition present {A : Type} (o : option A) : bool :=
  match o with
  | Some _ => true
  | None => false
  end.

Definition render (auth : Auth0) (s : State) : View :=
  if isAuthLoading auth then AuthGate
  else if negb (isAuthenticated auth) then LoggedOut
  else Main (negb (present (guide s)) && negb (isLoading s))
            (isLoading s)
            (present (guide s)).

(** The error line of the form: [{error && ...}] inside the form block. *)
Definition shown_error (auth : Auth0) (s : State) : option string :=
  match render auth s with
  | Main true _ _ => if truthy (error s) then error s else None
  | _ => None
  end.

End App.

(** ** Observations on a run of the orchestrator *)

Module Run.

Import geminiService.

(** The property of an element of [plan.steps] as the loop body reads it,
    after [step.imagePrompt] has been read without a throw. *)
Definition field (step : json) (key : string) : jsval :=
  match get step key with
  | Return v => v
  | Throw _ => undefined
  end.

Definition request_of (step : json) : ImagesRequest :=
  {| prompt := field step "imagePrompt"; config := image_config |}.

(** The planning request of a run that read the file as [url]. *)
Definition planning_request (problemDescription : string) (imageFile : File)
    (url : string) : ContentRequest :=
  {| mimeType := type imageFile;
     data := nth_error (split "," url) 1;
     planningPrompt := problemDescription |}.

(** The RepairPlan of a run: the value the planning response parses to. *)
Definition planOf (env : Env) (problemDescription : string) (imageFile : File)
    : option json :=
  if truthy (API_KEY env) then
    match readAsDataURL env imageFile with
    | Some url =>
        match generateContent env (planning_request problemDescription imageFile url) with
        | Return (Some text) => JSON_parse env (trim text)
        | _ => None
        end
    | None => None
    end
  else None.

(** [plan.steps] when it is an array. *)
Definition stepsOf (plan : json) : option (list json) :=
  match get plan "steps" with
  | Return (Some (JArr items)) => Some items
  | _ => None
  end.

(** The events up to the planning response. *)
Definition planning_events (env : Env) (problemDescription : string)
    (imageFile : File) (url : string) : list event :=
  [ updateLoadingMessage analyzing_message;
    FileRead imageFile (Some url);
    GenerateContent (planning_request problemDescription imageFile url)
      (generateContent env (planning_request problemDescription imageFile url)) ].

(** The events of the loop over [steps] when no iteration throws, [index]
    being the position of the first of them. *)
Fixpoint loop_events (env : Env) (N index : nat) (steps : list json) : list event :=
  match steps with
  | [] => []
  | step :: rest =>
      updateLoadingMessage (generating_message (index + 1) N)
      :: GenerateImages (request_of step) (generateImages env index (request_of step))
      :: loop_events env N (S index) rest
  end.

(** The progress messages of a trace, in order. *)
Fixpoint messages (log : list event) : list string :=
  match log with
  | [] => []
  | updateLoadingMessage m :: rest => m :: messages rest
  | _ :: rest => messages rest
  end.

Definition is_image_call (e : event) : bool :=
  match e with
  | GenerateImages _ _ => true
  | _ => false
  end.

Definition is_content_call (e : event) : bool :=
  match e with
  | GenerateContent _ _ => true
  | _ => false
  end.

Definition image_calls (log : list event) : nat :=
  length (filter (fun e => is_image_call e = true) log).

Definition content_calls (log : list event) : nat :=
  length (filter (fun e => is_content_call e = true) log).

(** The test of line 164: no [generatedImages], or an empty one. *)
Definition zero_images (r : ImagesResponse) : bool :=
  match generatedImages r with
  | None | Some [] => true
  | Some (_ :: _) => false
  end.

(** How the loop ends at a step for which no image came back. *)
Definition image_failure {A : Type} (step : json) : completion A :=
  match ToString_val (field step "stepNumber") with
  | Some s => Throw (Error ("Failed to generate an image for step " +:+ s +:+ "."))
  | None => Throw (TypeError "Cannot convert object to primitive value")
  end.

(** The run once the loop has ended: the guide is assembled, or the
    throw of the loop is passed on. *)
Definition assemble (plan : json) (r : completion (list TutorialStep))
    : completion RepairGuide :=
  match r with
  | Return generated =>
      Return {| safetyWarning := field plan "safetyWarning"; steps := generated |}
  | Throw e => Throw e
  end.

Definition looped (env : Env) (problemDescription : string) (imageFile : File)
    (url : string) (plan : json) (items : list json) : M RepairGuide :=
  let (log, r) := image_loop env (length items) 0 items [] in
  (planning_events env problemDescription imageFile url ++ log, assemble plan r).

(** A tutorial step carries the step number and the description of a plan
    step. *)
Definition preserves (step : json) (t : TutorialStep) : Prop :=
  get step "stepNumber" = Return (stepNumber t) /\
  get step "description" = Return (description t).

(** The [responseSchema] of the planning call (lines 93 to 127), read
    generously: [safetyWarning] may also be [null] or absent, as the
    description of the property has it, and the array has no bound. *)
Definition is_string (v : jsval) : bool :=
  match v with
  | Some (JStr _) => true
  | _ => false
  end.

Definition is_integer (v : jsval) : bool :=
  match v with
  | Some (JNum (Finite m e)) =>
      if (0 <=? e)%Z then true else (m mod 2 ^ (- e) =? 0)%Z
  | _ => false
  end.

Definition step_matches_schema (step : json) : bool :=
  match step with
  | JObj fields =>
      is_integer (assoc "stepNumber" fields)
      && is_string (assoc "description" fields)
      && is_string (assoc "imagePrompt" fields)
  | _ => false
  end.

Definition is_string_or_null (v : jsval) : bool :=
  match v with
  | Some (JStr _) | Some JNull | None => true
  | _ => false
  end.

Definition matches_responseSchema (plan : json) : bool :=
  match plan with
  | JObj fields =>
      is_string_or_null (assoc "safetyWarning" fields)
      && match assoc "steps" fields with
         | Some (JArr items) => forallb step_matches_schema items
         | _ => false
         end
  | _ => false
  end.

End Run.


(** ** Concrete runs *)

Module Scenario.

Import geminiService Run App.

Definition quote : string := String "034"%char EmptyString.

(** [JSON.stringify] on values whose strings need no escaping. *)
Fixpoint stringify (v : json) : string :=
  match v with
  | JNull => "null"
  | JBool true => "true"
  | JBool false => "false"
  | JNum (Infinite _) => "null"
  | JNum x => Number_toString x
  | JStr s => quote +:+ s +:+ quote
  | JArr items =>
      "[" +:+
      (fix join (l : list json) : string :=
         match l with
         | [] => ""
         | [x] => stringify x
         | x :: rest => stringify x +:+ "," +:+ join rest
         end) items
      +:+ "]"
  | JObj fields =>
      "{" +:+
      (fix join (l : list (string * json)) : string :=
         match l with
         | [] => ""
         | [(k, x)] => quote +:+ k +:+ quote +:+ ":" +:+ stringify x
         | (k, x) :: rest =>
             quote +:+ k +:+ quote +:+ ":" +:+ stringify x +:+ "," +:+ join rest
         end) fields
      +:+ "}"
  end.

Definition chair_description : string := "Cracked wooden chair leg".

(** A JPEG under 4 MiB. *)
Definition chair_photo : File := {| size := 204800; type := "image/jpeg" |}.

Definition chair_data_url : string := "data:image/jpeg;base64,/9j/4AAQSkZJRg==".

Definition one_image (bytes : string) : ImagesResponse :=
  {| generatedImages := Some [ {| image := Some {| imageBytes := Some bytes |} |} ] |}.

Definition no_image : ImagesResponse := {| generatedImages := Some [] |}.

Definition plan_step (n : Z) (text picture : string) : json :=
  JObj [("stepNumber", JNum n); ("description", JStr text); ("imagePrompt", JStr picture)].

(** An environment with the credential set, whose planning call answers
    [text], whose [JSON.parse] knows the text of [plan], and whose image
    call is [images]. *)
Definition service (text : string) (plan : json)
    (images : nat -> ImagesRequest -> completion ImagesResponse) : Env :=
  {| API_KEY := Some "test-key";
     readAsDataURL := fun _ => Some chair_data_url;
     generateContent := fun _ => Return (Some text);
     JSON_parse := fun s => if String.eqb s (stringify plan) then Some plan else None;
     generateImages := images |}.

Definition always_one_image (k : nat) (r : ImagesRequest) : completion ImagesResponse :=
  Return (one_image "AAAA").

(** The scenario of the specification: a plan of three steps without a
    safety warning, one image for each prompt. *)
Definition chair_steps : list json :=
  [plan_step 1 "Gather wood glue and a clamp." "Wood glue and a clamp on a bench";
   plan_step 2 "Spread glue into the crack." "Glue pressed into a cracked chair leg";
   plan_step 3 "Clamp the leg for a day." "A clamp holding a chair leg"].

Definition chair_plan : json :=
  JObj [("safetyWarning", JNull); ("steps", JArr chair_steps)].

Definition chair_env : Env :=
  service (stringify chair_plan) chair_plan always_one_image.

Definition chair_guide : RepairGuide :=
  {| safetyWarning := Some JNull;
     steps :=
       [{| stepNumber := Some (JNum 1);
           description := Some (JStr "Gather wood glue and a clamp.");
           imageUrl := "data:image/jpeg;base64,AAAA" |};
        {| stepNumber := Some (JNum 2);
           description := Some (JStr "Spread glue into the crack.");
           imageUrl := "data:image/jpeg;base64,AAAA" |};
        {| stepNumber := Some (JNum 3);
           description := Some (JStr "Clamp the leg for a day.");
           imageUrl := "data:image/jpeg;base64,AAAA" |}] |}.

(** A plan of a single step. *)
Definition short_plan : json :=
  JObj [("safetyWarning", JStr "Wear gloves.");
        ("steps", JArr [plan_step 1 "Glue the leg." "A glued chair leg"])].

Definition short_env : Env :=
  service (stringify short_plan) short_plan always_one_image.

(** A payload that is JSON and does not have the shape of a plan: its
    second step has no description. *)
Definition shapeless_plan : json :=
  JObj [("safetyWarning", JStr "Wear gloves.");
        ("steps", JArr [plan_step 1 "Gather wood glue and a clamp." "Wood glue and a clamp on a bench";
                        JObj [("stepNumber", JNum 2);
                              ("imagePrompt", JStr "Glue pressed into a cracked chair leg")];
                        plan_step 3 "Clamp the leg for a day." "A clamp holding a chair leg"])].

Definition shapeless_env : Env :=
  service (stringify shapeless_plan) shapeless_plan always_one_image.

(** A planning response that is no JSON at all. *)
Definition prose_env : Env :=
  service "I cannot help with that." chair_plan always_one_image.

(** The image service gives no image for the second request. *)
Definition second_fails (k : nat) (r : ImagesRequest) : completion ImagesResponse :=
  if Nat.eqb k 1 then Return no_image else Return (one_image "AAAA").

Definition second_fails_env : Env :=
  service (stringify chair_plan) chair_plan second_fails.

(** A plan whose step numbers are 2, 2 and 7. *)
Definition misnumbered_plan : json :=
  JObj [("safetyWarning", JNull);
        ("steps", JArr [plan_step 2 "Gather wood glue and a clamp." "Wood glue and a clamp on a bench";
                        plan_step 2 "Spread glue into the crack." "Glue pressed into a cracked chair leg";
                        plan_step 7 "Clamp the leg for a day." "A clamp holding a chair leg"])].

Definition misnumbered_env : Env :=
  service (stringify misnumbered_plan) misnumbered_plan always_one_image.

(** No credential. *)
Definition keyless_env : Env :=
  {| API_KEY := None;
     readAsDataURL := fun _ => Some chair_data_url;
     generateContent := fun _ => Return (Some (stringify chair_plan));
     JSON_parse := fun s => if String.eqb s (stringify chair_plan) then Some chair_plan else None;
     generateImages := always_one_image |}.

(** The shell showing the guide of the chair scenario. *)
Definition guide_chair_shown : State :=
  {| problemDescription := chair_description;
     imageFile := Some chair_photo;
     previewUrl := Some "blob:preview-1";
     guide := Some chair_guide;
     isLoading := false;
     loadingMessage := "";
     error := None;
     fileInputRef := None |}.

Definition signed_in : Auth0 :=
  {| isAuthenticated := true; isAuthLoading := false |}.

Definition blob_url (f : File) : string := "blob:preview-2".

End Scenario.

(** ** The page around the handlers *)

Module Page.

Import geminiService App.

(** [disabled] of the generate button (line 304). *)
Definition generate_disabled (s : State) : bool :=
  negb (truthy (Some (problemDescription s)))
  || negb (present (imageFile s))
  || isLoading s.

Definition setFileInputRef (v : option string) (s : State) : State :=
  {| problemDescription := problemDescription s; imageFile := imageFile s;
     previewUrl := previewUrl s; guide := guide s; isLoading := isLoading s;
     loadingMessage := loadingMessage s; error := error s;
     fileInputRef := v |}.

(** The states the shell can be in: the initial one, and those the event
    handlers and the states they pass through lead to, whatever the
    services answer; the browser and React may change the file input
    behind the ref at any time. The handlers are taken from any state,
    also where the page does not offer them. *)
Inductive reachable : State -> Prop :=
| reach_initial : reachable initial
| reach_description (v : string) (s : State) :
    reachable s -> reachable (setProblemDescription v s)
| reach_file (createObjectURL : File -> string) (file : option File) (s : State) :
    reachable s -> reachable (handleFileChange createObjectURL file s)
| reach_generate (env : Env) (s t : State) :
    reachable s -> t ∈ handleGenerateGuide env s -> reachable t
| reach_reset (s : State) :
    reachable s -> reachable (handleReset s)
| reach_ref (v : option string) (s : State) :
    reachable s -> reachable (setFileInputRef v s).

(** Whether the character occurs in the string. *)
Fixpoint occurs (c : ascii) (s : string) : bool :=
  match s with
  | EmptyString => false
  | String c' rest => Ascii.eqb c' c || occurs c rest
  end.

End Page.

(** ** More concrete runs *)

Module Cases.

Import geminiService Run App Scenario.

(** The reader fails on the file. *)
Definition unreadable_env : Env :=
  {| API_KEY := Some "test-key";
     readAsDataURL := fun _ => None;
     generateContent := fun _ => Return (Some (stringify chair_plan));
     JSON_parse := fun s => if String.eqb s (stringify chair_plan) then Some chair_plan else None;
     generateImages := always_one_image |}.

(** The planning call is rejected. *)
Definition offline_env : Env :=
  {| API_KEY := Some "test-key";
     readAsDataURL := fun _ => Some chair_data_url;
     generateContent := fun _ => Throw (Error "Failed to fetch");
     JSON_parse := fun s => if String.eqb s (stringify chair_plan) then Some chair_plan else None;
     generateImages := always_one_image |}.

(** The planning response is the JSON text [{}]. *)
Definition stepless_plan : json := JObj [].

Definition stepless_env : Env :=
  service (stringify stepless_plan) stepless_plan always_one_image.

(** A plan with an empty [steps]. *)
Definition empty_plan : json :=
  JObj [("safetyWarning", JStr "Wear gloves."); ("steps", JArr [])].

Definition empty_env : Env :=
  service (stringify empty_plan) empty_plan always_one_image.

(** The image call is rejected at the second request. *)
Definition second_rejected (k : nat) (r : ImagesRequest) : completion ImagesResponse :=
  if Nat.eqb k 1 then Throw (Error "quota exceeded") else Return (one_image "AAAA").

Definition second_rejected_env : Env :=
  service (stringify chair_plan) chair_plan second_rejected.

(** The form filled in, nothing generated yet. *)
Definition complete_form : State :=
  {| problemDescription := chair_description;
     imageFile := Some chair_photo;
     previewUrl := Some "blob:preview-1";
     guide := None;
     isLoading := false;
     loadingMessage := "";
     error := None;
     fileInputRef := Some "chair.jpg" |}.

Definition large_photo : File := {| size := 5000000; type := "image/png" |}.

(** A reader that gives a data URL without a comma, as for an empty file. *)
Definition commaless_env : Env :=
  {| API_KEY := Some "test-key";
     readAsDataURL := fun _ => Some "data:";
     generateContent := fun _ => Return (Some (stringify chair_plan));
     JSON_parse := fun s => if String.eqb s (stringify chair_plan) then Some chair_plan else None;
     generateImages := always_one_image |}.

Definition empty_file : File := {| size := 0; type := "" |}.

(** A plan whose first step has an object with an own [toString] as its
    step number, and an image service that never has an image. *)
Definition unprintable_plan : json :=
  JObj [("safetyWarning", JNull);
        ("steps",
         JArr [JObj [("stepNumber", JObj [("toString", JNum 1)]);
                     ("description", JStr "Gather wood glue and a clamp.");
                     ("imagePrompt", JStr "Wood glue and a clamp on a bench")];
               plan_step 2 "Spread glue into the crack." "Glue pressed into a cracked chair leg";
               plan_step 3 "Clamp the leg for a day." "A clamp holding a chair leg"])].

Definition never_an_image (k : nat) (r : ImagesRequest) : completion ImagesResponse :=
  Return no_image.

Definition unprintable_env : Env :=
  service (stringify unprintable_plan) unprintable_plan never_an_image.

(** The chair plan sent with a no-break space (U+00A0) and a line feed
    after it. *)
Definition no_break_space : string := String "194" (String "160" EmptyString).

Definition padded_env : Env :=
  service (stringify chair_plan +:+ no_break_space +:+ String "010" EmptyString)
    chair_plan always_one_image.

(** The horizontal ellipsis (U+2026), and the progress messages written
    with it. *)
Definition ellipsis : string :=
  String "226" (String "128" (String "166" EmptyString)).

Definition analyzing_with_ellipsis : string :=
  "Analyzing item and planning repair" +:+ ellipsis.

Definition generating_with_ellipsis (i N : nat) : string :=
  "Generating image for step " +:+ pretty i +:+ " of " +:+ pretty N +:+ ellipsis.

End Cases.

(** ** How far the loop gets *)

Module Loop.

Import geminiService Run.

(** Whether the iteration for [step], the request number [index], goes
    through to the [push]: the step is not [null], the image call returns,
    and the first of its images has an [image]. *)
Definition step_completes (env : Env) (index : nat) (step : json) : bool :=
  match step with
  | JNull => false
  | _ =>
      match generateImages env index (request_of step) with
      | Return response =>
          match generatedImages response with
          | Some (first :: _) =>
              match image first with
              | Some _ => true
              | None => false
              end
          | _ => false
          end
      | Throw _ => false
      end
  end.

(** The number of steps, from position [index] on, that complete before
    the first that does not. *)
Fixpoint completed (env : Env) (index : nat) (steps : list json) : nat :=
  match steps with
  | [] => 0
  | step :: rest =>
      if step_completes env index step then S (completed env (S index) rest)
      else 0
  end.

(** The events of an iteration that does not complete: its message, and
    its request unless reading the prompt of a [null] step threw before. *)
Definition attempt_events (env : Env) (N index : nat) (step : json) : list event :=
  updateLoadingMessage (generating_message (index + 1) N)
  :: match step with
     | JNull => []
     | _ => [GenerateImages (request_of step)
               (generateImages env index (request_of step))]
     end.

End Loop.

(** ** Properties of the orchestrator *)

Section Orchestrator.

Import geminiService Run.

Variable env : Env.

Local Arguments trim : simpl never.

(** Reading a property of a step that is not [null] never throws. *)
Lemma get_field (step : json) (key : string) (v : jsval) :
  get step key = Return v -> forall key', get step key' = Return (field step key').
Proof.
  unfold field. destruct step; simpl; intros H key'; try reflexivity.
  discriminate H.
Qed.

Lemma get_field_eq (step : json) (key : string) (v : jsval) :
  get step key = Return v -> v = field step key.
Proof. unfold field. intros ->. reflexivity. Qed.

(** One iteration of the loop, by the cases of its three tests. *)
Lemma image_loop_cons (N index : nat) (step : json) (rest : list json)
    (acc : list TutorialStep) :
  let shown := updateLoadingMessage (generating_message (index + 1) N) in
  let called :=
    GenerateImages (request_of step) (generateImages env index (request_of step)) in
  image_loop env N index (step :: rest) acc =
    match get step "imagePrompt" with
    | Throw e => ([shown], Throw e)
    | Return _ =>
        match generateImages env index (request_of step) with
        | Throw e => ([shown; called], Throw e)
        | Return response =>
            match generatedImages response with
            | None | Some [] => ([shown; called], image_failure step)
            | Some (first :: _) =>
                match image first with
                | None =>
                    ([shown; called],
                     Throw (TypeError "Cannot read properties of undefined (reading 'imageBytes')"))
                | Some img =>
                    let url := "data:image/jpeg;base64," +:+
                      match imageBytes img with
                      | Some b => b
                      | None => "undefined"
                      end in
                    let (log, r) :=
                      image_loop env N (S index) rest
                        (acc ++ [{| stepNumber := field step "stepNumber";
                                    description := field step "description";
                                    imageUrl := url |}]) in
                    (shown :: called :: log, r)
                end
            end
        end
    end.
Proof.
  intros shown called. subst shown called. unfold request_of.
  destruct (get step "imagePrompt") as [p|e] eqn:Hp; simpl; rewrite Hp; simpl;
    [|reflexivity].
  rewrite (get_field_eq _ _ _ Hp).
  destruct (generateImages env index _) as [response|e]; simpl; [|reflexivity].
  rewrite (get_field _ _ _ Hp "stepNumber").
  destruct (generatedImages response) as [[|first others]|]; simpl.
  - unfold image_failure, template. destruct (ToString_val _); reflexivity.
  - destruct (image first) as [img|]; simpl; [|reflexivity].
    rewrite (get_field _ _ _ Hp "description"). simpl.
    destruct (image_loop _ _ _ _ _). reflexivity.
  - unfold image_failure, template. destruct (ToString_val _); reflexivity.
Qed.

(** The trace of the loop is an initial part of [loop_events]; when the
    loop returns it is all of it, and one tutorial step has been pushed for
    each plan step. *)
Lemma image_loop_inv (rest : list json) :
  forall (N index : nat) (acc : list TutorialStep) log out,
    image_loop env N index rest acc = (log, out) ->
    log `prefix_of` loop_events env N index rest /\
    match out with
    | Return generated =>
        log = loop_events env N index rest /\
        exists new, generated = acc ++ new /\ Forall2 preserves rest new
    | Throw _ => True
    end.
Proof.
  induction rest as [|step rest IH]; intros N index acc log out.
  - simpl. intros [= <- <-]. split; [done|]. split; [done|].
    exists []. rewrite app_nil_r. split; [done|constructor].
  - rewrite image_loop_cons. cbn [loop_events].
    destruct (get step "imagePrompt") as [p|e] eqn:Hp.
    2:{ intros [= <- <-]. split; [|done]. by apply prefix_cons, prefix_nil. }
    destruct (generateImages env index (request_of step)) as [response|e] eqn:Hr.
    2:{ intros [= <- <-]. split; [|done].
        by apply prefix_cons, prefix_cons, prefix_nil. }
    assert (Hstop : forall (o : completion (list TutorialStep)),
      match o with Throw _ => True | Return _ => False end ->
      ([updateLoadingMessage (generating_message (index + 1) N);
        GenerateImages (request_of step) (Return response)], o) = (log, out) ->
      (log `prefix_of`
         updateLoadingMessage (generating_message (index + 1) N)
         :: GenerateImages (request_of step) (Return response)
         :: loop_events env N (S index) rest) /\
      match out with
      | Return generated =>
          log = updateLoadingMessage (generating_message (index + 1) N)
                :: GenerateImages (request_of step) (Return response)
                :: loop_events env N (S index) rest /\
          exists new, generated = acc ++ new /\ Forall2 preserves (step :: rest) new
      | Throw _ => True
      end).
    { intros o Ho [= <- <-]. split; [by apply prefix_cons, prefix_cons, prefix_nil|].
      destruct o; [destruct Ho|done]. }
    destruct (generatedImages response) as [[|first others]|].
    + apply Hstop. unfold image_failure. by destruct (ToString_val _).
    + destruct (image first) as [img|]; [|by apply Hstop].
      cbv zeta.
      destruct (image_loop env N (S index) rest _) as [log' r] eqn:Hloop.
      intros [= <- <-]. apply IH in Hloop as [Hpre Hout].
      split; [by apply prefix_cons, prefix_cons|].
      destruct r as [generated|e]; [|done].
      destruct Hout as [-> (new & -> & Hnew)]. split; [done|].
      eexists (_ :: new). rewrite <- app_assoc. split; [reflexivity|].
      constructor; [|done].
      split; cbn; by rewrite (get_field _ _ _ Hp).
    + apply Hstop. unfold image_failure. by destruct (ToString_val _).
Qed.

Lemma image_calls_cons (e : event) (log : list event) :
  image_calls (e :: log) =
    if is_image_call e then S (image_calls log) else image_calls log.
Proof.
  unfold image_calls. rewrite filter_cons.
  destruct (is_image_call e); by case_decide.
Qed.

Lemma image_calls_app (l1 l2 : list event) :
  image_calls (l1 ++ l2) = image_calls l1 + image_calls l2.
Proof. unfold image_calls. by rewrite filter_app, length_app. Qed.

(** A request of the loop that no image came back for is the last event of
    the loop, and the loop ends with the failure of its step. *)
Lemma image_loop_zero (rest : list json) :
  forall (N index : nat) (acc : list TutorialStep) log out pre req resp post,
    image_loop env N index rest acc = (log, out) ->
    log = pre ++ GenerateImages req (Return resp) :: post ->
    zero_images resp = true ->
    post = [] /\
    exists step, rest !! image_calls pre = Some step /\
                 req = request_of step /\ out = image_failure step.
Proof.
  induction rest as [|step rest IH];
    intros N index acc log out pre req resp post Hrun Hlog Hzero.
  - simpl in Hrun. injection Hrun as <- <-. by destruct pre.
  - rewrite image_loop_cons in Hrun. cbv zeta in Hrun.
    destruct (get step "imagePrompt") as [p|e] eqn:Hp.
    2:{ injection Hrun as <- <-. by destruct pre as [|? [|? ?]]. }
    destruct (generateImages env index (request_of step)) as [response|e] eqn:Hr.
    2:{ injection Hrun as <- <-.
        destruct pre as [|? [|? [|? ?]]]; simpl in Hlog; by simplify_eq. }
    assert (Hlast : forall (o : completion (list TutorialStep)),
      zero_images response = true -> o = image_failure step ->
      ([updateLoadingMessage (generating_message (index + 1) N);
        GenerateImages (request_of step) (Return response)], o) = (log, out) ->
      post = [] /\
      exists step', (step :: rest) !! image_calls pre = Some step' /\
                    req = request_of step' /\ out = image_failure step').
    { intros o _ -> [= <- <-].
      destruct pre as [|? [|? [|? ?]]]; simpl in Hlog; simplify_eq.
      split; [done|]. by exists step. }
    assert (Hnot : forall (o : completion (list TutorialStep)),
      zero_images response = false ->
      ([updateLoadingMessage (generating_message (index + 1) N);
        GenerateImages (request_of step) (Return response)], o) = (log, out) ->
      post = [] /\
      exists step', (step :: rest) !! image_calls pre = Some step' /\
                    req = request_of step' /\ out = image_failure step').
    { intros o Hnz [= <- <-].
      destruct pre as [|? [|? [|? ?]]]; simpl in Hlog; simplify_eq. congruence. }
    unfold zero_images in Hlast, Hnot.
    destruct (generatedImages response) as [[|first others]|] eqn:Himgs.
    + exact (Hlast _ eq_refl eq_refl Hrun).
    + destruct (image first) as [img|]; [|exact (Hnot _ eq_refl Hrun)].
      destruct (image_loop env N (S index) rest _) as [log' r] eqn:Hloop.
      injection Hrun as <- <-.
      destruct pre as [|e1 [|e2 pre']]; simpl in Hlog; simplify_eq.
      { unfold zero_images in Hzero. by rewrite Himgs in Hzero. }
      destruct (IH _ _ _ _ _ _ _ _ _ Hloop eq_refl Hzero) as (-> & step' & Hat & -> & ->).
      split; [done|]. exists step'. split; [|done].
      rewrite !image_calls_cons. simpl. done.
    + exact (Hlast _ eq_refl eq_refl Hrun).
Qed.

(** A run with a plan whose [steps] is an array is the planning events
    followed by the loop. *)
Lemma generateRepairGuide_planned (d : string) (f : File) url plan items :
  readAsDataURL env f = Some url ->
  planOf env d f = Some plan ->
  stepsOf plan = Some items ->
  generateRepairGuide env d f = looped env d f url plan items.
Proof.
  unfold planOf, stepsOf, generateRepairGuide, looped, planning_events,
    fileToBase64, planning_request, getMimeType.
  intros Hurl. rewrite Hurl.
  destruct (truthy (API_KEY env)); [|done]. simpl.
  destruct (generateContent env _) as [[text|]|e]; try done.
  simpl. intros ->. simpl.
  destruct (get plan "steps") as [[[]|]|] eqn:Hsteps; try done.
  intros [= ->]. simpl.
  destruct (image_loop env (length items) 0 items []) as [log [generated|e]]; simpl.
  - unfold field. destruct plan; try done; simpl; by rewrite app_nil_r.
  - done.
Qed.

Local Ltac stopped :=
  right; split; [reflexivity | eexists; reflexivity].

(** Every other run throws without a request to the image service. *)
Lemma generateRepairGuide_cases (d : string) (f : File) :
  (exists url plan items,
      readAsDataURL env f = Some url /\ planOf env d f = Some plan /\
      stepsOf plan = Some items) \/
  (image_calls (generateRepairGuide env d f).1 = 0 /\
   exists e, (generateRepairGuide env d f).2 = Throw e).
Proof.
  unfold planOf, stepsOf, generateRepairGuide, fileToBase64, planning_request,
    getMimeType.
  destruct (truthy (API_KEY env)); simpl; [|stopped].
  destruct (readAsDataURL env f) as [url|]; simpl; [|stopped].
  destruct (generateContent env _) as [[text|]|e]; simpl; [|stopped..].
  destruct (JSON_parse env (trim text)) as [plan|]; simpl; [|stopped].
  destruct (get plan "steps") as [[[]|]|] eqn:Hsteps; simpl; try stopped.
  left. exists url, plan, items. by rewrite Hsteps.
Qed.

End Orchestrator.

(** ** Specified properties of the orchestrator *)

Import geminiService Run.

(** The scenario of the specification, evaluated: the guide has no safety
    warning and the three steps of the plan, in order. *)
Example chair_run :
  (generateRepairGuide Scenario.chair_env Scenario.chair_description
     Scenario.chair_photo).2 = Return Scenario.chair_guide /\
  image_calls (generateRepairGuide Scenario.chair_env Scenario.chair_description
                 Scenario.chair_photo).1 = 3.
Proof. split; vm_compute; reflexivity. Qed.

(** C1, as stated, fails: the planning response of [Scenario.short_env] is
    a plan of one step, the run succeeds, and the guide has one step, which
    is not between 3 and 5. *)
Lemma short_plan_guide_has_one_step :
  exists log g,
    generateRepairGuide Scenario.short_env Scenario.chair_description
      Scenario.chair_photo = (log, Return g) /\
    length (steps g) = 1 /\
    ~ (3 <= length (steps g) <= 5).
Proof.
  eexists _, _. split; [vm_compute; reflexivity|].
  split; [reflexivity|]. simpl. lia.
Qed.

(** C1, amended: a run that returns a guide had a plan whose [steps] is an
    array, and the guide has as many steps as that array, whatever its
    length. *)
Theorem guide_length_is_plan_length (env : Env) (d : string) (f : File)
    (g : RepairGuide) :
  (generateRepairGuide env d f).2 = Return g ->
  exists plan items,
    planOf env d f = Some plan /\
    stepsOf plan = Some items /\
    length (steps g) = length items.
Proof.
  intros Hrun.
  destruct (generateRepairGuide_cases env d f)
    as [(url & plan & items & Hurl & Hplan & Hsteps)|[_ [e He]]];
    [|congruence].
  exists plan, items. do 2 (split; [done|]).
  rewrite (generateRepairGuide_planned env d f url plan items) in Hrun by done.
  unfold looped in Hrun.
  destruct (image_loop env (length items) 0 items []) as [log r] eqn:Hloop.
  apply image_loop_inv in Hloop as [_ Hout].
  destruct r as [generated|e]; [|discriminate Hrun].
  destruct Hout as [_ (new & -> & Hnew)].
  injection Hrun as <-. simpl. by rewrite (Forall2_length _ _ _ Hnew).
Qed.

(** The chair scenario: three plan steps, three tutorial steps. *)
Lemma guide_length_is_plan_length_chair :
  exists plan items,
    planOf Scenario.chair_env Scenario.chair_description Scenario.chair_photo
      = Some plan /\
    stepsOf plan = Some items /\
    length (steps Scenario.chair_guide) = length items.
Proof.
  apply (guide_length_is_plan_length Scenario.chair_env
           Scenario.chair_description Scenario.chair_photo Scenario.chair_guide).
  vm_compute. reflexivity.
Defined.

(** C2, as stated, fails for a payload that parses and does not have the
    shape: the response of [Scenario.shapeless_env] parses to a plan whose
    second step has no [description], and the run does not fail; it
    requests three images and returns a guide whose second step has an
    undefined description. *)
Lemma shapeless_plan_reaches_image_service :
  exists log g,
    planOf Scenario.shapeless_env Scenario.chair_description Scenario.chair_photo
      = Some Scenario.shapeless_plan /\
    matches_responseSchema Scenario.shapeless_plan = false /\
    generateRepairGuide Scenario.shapeless_env Scenario.chair_description
      Scenario.chair_photo = (log, Return g) /\
    image_calls log = 3 /\
    map description (steps g) =
      [Some (JStr "Gather wood glue and a clamp."); undefined;
       Some (JStr "Clamp the leg for a day.")].
Proof.
  eexists _, _. split; [vm_compute; reflexivity|].
  split; [reflexivity|].
  split; [vm_compute; reflexivity|].
  split; vm_compute; reflexivity.
Qed.

(** C2, amended: when the text of the planning response is not JSON, the
    run throws the [Error] with the unexpected-format message right after
    logging the text; the planning service was called once and the image
    service not at all. *)
Theorem unparseable_plan_fails_before_images (env : Env) (d : string)
    (f : File) (url text : string) :
  truthy (API_KEY env) = true ->
  readAsDataURL env f = Some url ->
  generateContent env (planning_request d f url) = Return (Some text) ->
  JSON_parse env (trim text) = None ->
  let run := generateRepairGuide env d f in
  run =
    ([updateLoadingMessage analyzing_message;
      FileRead f (Some url);
      GenerateContent (planning_request d f url) (Return (Some text));
      ConsoleError "Failed to parse JSON from planning model:" (trim text)],
     Throw (Error unexpected_format_message)) /\
  content_calls run.1 = 1 /\
  image_calls run.1 = 0.
Proof.
  intros Hkey Hurl Htext Hparse run. subst run.
  assert (Hrun : generateRepairGuide env d f =
    ([updateLoadingMessage analyzing_message;
      FileRead f (Some url);
      GenerateContent (planning_request d f url) (Return (Some text));
      ConsoleError "Failed to parse JSON from planning model:" (trim text)],
     Throw (Error unexpected_format_message))).
  { unfold generateRepairGuide, fileToBase64, planning_request, getMimeType in *.
    rewrite Hkey, Hurl. cbn -[trim nth_error split]. rewrite Htext.
    cbn -[trim nth_error split].
    rewrite Hparse. reflexivity. }
  rewrite Hrun. split; [reflexivity|]. split; reflexivity.
Qed.

(** A planning response in prose. *)
Lemma unparseable_plan_fails_before_images_prose :
  let run :=
    generateRepairGuide Scenario.prose_env Scenario.chair_description
      Scenario.chair_photo in
  run =
    ([updateLoadingMessage analyzing_message;
      FileRead Scenario.chair_photo (Some Scenario.chair_data_url);
      GenerateContent
        (planning_request Scenario.chair_description Scenario.chair_photo
           Scenario.chair_data_url)
        (Return (Some "I cannot help with that."));
      ConsoleError "Failed to parse JSON from planning model:"
        (trim "I cannot help with that.")],
     Throw (Error unexpected_format_message)) /\
  content_calls run.1 = 1 /\
  image_calls run.1 = 0.
Proof.
  apply (unparseable_plan_fails_before_images Scenario.prose_env
           Scenario.chair_description Scenario.chair_photo
           Scenario.chair_data_url "I cannot help with that.");
    vm_compute; reflexivity.
Defined.

(** [trim] takes away the white space of more than one byte as well, at
    both ends and only there. *)
Example trim_examples :
  trim ("  {}" +:+ String "009" (String "010" EmptyString)) = "{}" /\
  trim ("{}" +:+ Cases.no_break_space) = "{}" /\
  trim (String "239" (String "187" (String "191" "{}"))
        +:+ String "226" (String "128" (String "168" EmptyString))) = "{}" /\
  trim ("a" +:+ Cases.no_break_space +:+ "b ") = "a" +:+ Cases.no_break_space +:+ "b" /\
  trim (String "195" (String "160" " ")) = String "195" (String "160" EmptyString) /\
  trim (Cases.no_break_space +:+ " ") = "".
Proof. repeat split; vm_compute; reflexivity. Qed.

(** A plan followed by a no-break space and a line feed is trimmed, parsed
    and illustrated like the plan alone. *)
Example padded_plan_is_parsed :
  planOf Cases.padded_env Scenario.chair_description Scenario.chair_photo
    = Some Scenario.chair_plan /\
  (generateRepairGuide Cases.padded_env Scenario.chair_description
     Scenario.chair_photo).2 = Return Scenario.chair_guide.
Proof. split; vm_compute; reflexivity. Qed.

(** C9: without the credential the run throws the configuration error at
    once; its trace is empty, so the progress callback was not invoked and
    no service was called. *)
Theorem missing_api_key_fails_first (env : Env) (d : string) (f : File) :
  truthy (API_KEY env) = false ->
  generateRepairGuide env d f = ([], Throw (Error api_key_message)).
Proof.
  intros Hkey. unfold generateRepairGuide. rewrite Hkey. reflexivity.
Qed.

(** The environment without [API_KEY]. *)
Lemma missing_api_key_fails_first_keyless :
  generateRepairGuide Scenario.keyless_env Scenario.chair_description
    Scenario.chair_photo = ([], Throw (Error api_key_message)).
Proof.
  apply (missing_api_key_fails_first Scenario.keyless_env). reflexivity.
Defined.

(** Numbers in a template literal: the integers up to 1000 are printed
    with their decimal digits. *)
Lemma Number_toString_small (n : nat) :
  n <= 1000 -> Number_toString (Z.of_nat n) = pretty n.
Proof.
  intros Hn.
  assert (Hall : forallb
            (fun k => String.eqb (Number_toString (Z.of_nat k)) (pretty k))
            (seq 0 1001) = true) by (vm_compute; reflexivity).
  rewrite forallb_forall in Hall.
  apply String.eqb_eq, Hall, in_seq. lia.
Qed.

(** Numbers beyond the integers: the exponent form from [10^21] on, the
    nearest double of an integer above [2^53], fractions, infinity. *)
Example Number_toString_examples :
  Number_toString 2%Z = "2" /\
  Number_toString (-120)%Z = "-120" /\
  Number_toString (10 ^ 21)%Z = "1e+21" /\
  Number_toString (10 ^ 21 - 1)%Z = "1e+21" /\
  Number_toString (2 ^ 53 + 1)%Z = "9007199254740992" /\
  Number_toString (2 ^ 60)%Z = "1152921504606847000" /\
  Number_toString (Finite 3 (-1)) = "1.5" /\
  Number_toString (Finite 3602879701896397 (-55)) = "0.1" /\
  Number_toString (Finite 1 (-1074)) = "5e-324" /\
  Number_toString (10 ^ 400)%Z = "Infinity".
Proof. repeat split; vm_compute; reflexivity. Qed.

(** C3, as stated, fails: in [Cases.unprintable_env] the step number of the
    first plan step is an object with an own [toString], the image service
    has no image for the first request, and building the message throws:
    the run ends with a [TypeError], not with the [Error] that names the
    step. *)
Lemma unprintable_step_number_is_type_error :
  let run :=
    generateRepairGuide Cases.unprintable_env Scenario.chair_description
      Scenario.chair_photo in
  exists pre req,
    run.1 = pre ++ [GenerateImages req (Return Scenario.no_image)] /\
    zero_images Scenario.no_image = true /\
    run.2 = Throw (TypeError "Cannot convert object to primitive value") /\
    forall message, run.2 <> Throw (Error message).
Proof.
  exists (take 4 (generateRepairGuide Cases.unprintable_env
                    Scenario.chair_description Scenario.chair_photo).1),
    {| prompt := Some (JStr "Wood glue and a clamp on a bench");
       config := image_config |}.
  split; [vm_compute; reflexivity|].
  split; [reflexivity|]. split; [vm_compute; reflexivity|].
  intros message. vm_compute. discriminate.
Qed.

(** C3, amended: an image request that comes back without an image is the
    last event of the run, and the run throws, so no guide is returned.
    The throw is the [Error] whose message carries the [stepNumber] of the
    plan step the request was made for, as the template literal prints it:
    a number by [Number::toString], hence a small integer by its digits.
    Only when the step number cannot be printed does the run end with the
    [TypeError] of the conversion. *)
Theorem zero_images_aborts_with_step_number (env : Env) (d : string)
    (f : File) (pre post : list event) (req : ImagesRequest)
    (resp : ImagesResponse) :
  (generateRepairGuide env d f).1 = pre ++ GenerateImages req (Return resp) :: post ->
  zero_images resp = true ->
  post = [] /\
  (forall g, (generateRepairGuide env d f).2 <> Return g) /\
  exists plan items step,
    planOf env d f = Some plan /\
    stepsOf plan = Some items /\
    items !! image_calls pre = Some step /\
    req = request_of step /\
    (forall s, ToString_val (field step "stepNumber") = Some s ->
       (generateRepairGuide env d f).2 =
         Throw (Error ("Failed to generate an image for step " +:+ s +:+ "."))) /\
    (forall x, field step "stepNumber" = Some (JNum x) ->
       (generateRepairGuide env d f).2 =
         Throw (Error ("Failed to generate an image for step "
                       +:+ Number_toString x +:+ "."))) /\
    (forall n : nat, n <= 1000 ->
       field step "stepNumber" = Some (JNum (Z.of_nat n)) ->
       (generateRepairGuide env d f).2 =
         Throw (Error ("Failed to generate an image for step " +:+ pretty n +:+ "."))) /\
    (ToString_val (field step "stepNumber") = None ->
     (generateRepairGuide env d f).2 =
       Throw (TypeError "Cannot convert object to primitive value")).
Proof.
  intros Hlog Hzero.
  destruct (generateRepairGuide_cases env d f)
    as [(url & plan & items & Hurl & Hplan & Hsteps)|[Hnone _]].
  2:{ rewrite Hlog, image_calls_app, image_calls_cons in Hnone.
      simpl in Hnone. lia. }
  rewrite (generateRepairGuide_planned env d f url plan items) in * by done.
  unfold looped, planning_events in *.
  destruct (image_loop env (length items) 0 items []) as [log r] eqn:Hloop.
  simpl in Hlog.
  destruct pre as [|e1 [|e2 [|e3 pre']]]; simpl in Hlog; simplify_eq.
  destruct (image_loop_zero env _ _ _ _ _ _ _ _ _ _ Hloop eq_refl Hzero)
    as (-> & step & Hat & -> & ->).
  split; [done|]. simpl. split.
  - intros g. unfold image_failure. by destruct (ToString_val _).
  - exists plan, items, step. rewrite !image_calls_cons. simpl.
    do 4 (split; [done|]).
    unfold image_failure.
    split; [by intros s ->|].
    split; [by intros x ->|].
    split; [|by intros ->].
    intros n Hn ->. simpl. by rewrite (Number_toString_small n Hn).
Qed.

(** The chair scenario with no image for the second request: the six
    events before it are followed by nothing else, and the step number is
    2. *)
Lemma zero_images_aborts_with_step_number_second :
  @nil event = [] /\
  (forall g,
     (generateRepairGuide Scenario.second_fails_env Scenario.chair_description
        Scenario.chair_photo).2 <> Return g) /\
  exists plan items step,
    planOf Scenario.second_fails_env Scenario.chair_description
      Scenario.chair_photo = Some plan /\
    stepsOf plan = Some items /\
    items !! image_calls
      (take 6 (generateRepairGuide Scenario.second_fails_env
                 Scenario.chair_description Scenario.chair_photo).1)
      = Some step /\
    {| prompt := Some (JStr "Glue pressed into a cracked chair leg");
       config := image_config |} = request_of step /\
    (forall s, ToString_val (field step "stepNumber") = Some s ->
       (generateRepairGuide Scenario.second_fails_env Scenario.chair_description
          Scenario.chair_photo).2 =
         Throw (Error ("Failed to generate an image for step " +:+ s +:+ "."))) /\
    (forall x, field step "stepNumber" = Some (JNum x) ->
       (generateRepairGuide Scenario.second_fails_env Scenario.chair_description
          Scenario.chair_photo).2 =
         Throw (Error ("Failed to generate an image for step "
                       +:+ Number_toString x +:+ "."))) /\
    (forall n : nat, n <= 1000 ->
       field step "stepNumber" = Some (JNum (Z.of_nat n)) ->
       (generateRepairGuide Scenario.second_fails_env Scenario.chair_description
          Scenario.chair_photo).2 =
         Throw (Error ("Failed to generate an image for step " +:+ pretty n +:+ "."))) /\
    (ToString_val (field step "stepNumber") = None ->
     (generateRepairGuide Scenario.second_fails_env Scenario.chair_description
        Scenario.chair_photo).2 =
       Throw (TypeError "Cannot convert object to primitive value")).
Proof.
  apply (zero_images_aborts_with_step_number Scenario.second_fails_env
           Scenario.chair_description Scenario.chair_photo
           (take 6 (generateRepairGuide Scenario.second_fails_env
                      Scenario.chair_description Scenario.chair_photo).1)
           []
           {| prompt := Some (JStr "Glue pressed into a cracked chair leg");
              config := image_config |}
           Scenario.no_image);
    vm_compute; reflexivity.
Defined.

(** The run of that scenario, evaluated: it stops at the second request
    with the message for step 2. *)
Example second_fails_run :
  (generateRepairGuide Scenario.second_fails_env Scenario.chair_description
     Scenario.chair_photo).2 =
    Throw (Error "Failed to generate an image for step 2.") /\
  image_calls (generateRepairGuide Scenario.second_fails_env
                 Scenario.chair_description Scenario.chair_photo).1 = 2.
Proof. split; vm_compute; reflexivity. Qed.

(** C4, as stated, fails: the plan of [Scenario.misnumbered_env] numbers
    its steps 2, 2 and 7, the run succeeds, and the guide carries these
    numbers, not 1, 2 and 3. *)
Lemma misnumbered_plan_is_passed_on :
  exists log g,
    generateRepairGuide Scenario.misnumbered_env Scenario.chair_description
      Scenario.chair_photo = (log, Return g) /\
    map stepNumber (steps g) = [Some (JNum 2); Some (JNum 2); Some (JNum 7)] /\
    map stepNumber (steps g) <> [Some (JNum 1); Some (JNum 2); Some (JNum 3)].
Proof.
  eexists _, _. split; [vm_compute; reflexivity|].
  split; [reflexivity|]. simpl. discriminate.
Qed.

(** C4, amended: in a guide that is returned, the tutorial steps are, in
    order, the plan steps with their [stepNumber] and [description]
    unchanged; the numbers of the guide are those of the plan. *)
Theorem guide_steps_preserve_plan_steps (env : Env) (d : string) (f : File)
    (g : RepairGuide) :
  (generateRepairGuide env d f).2 = Return g ->
  exists plan items,
    planOf env d f = Some plan /\
    stepsOf plan = Some items /\
    Forall2 preserves items (steps g) /\
    map stepNumber (steps g) = map (fun step => field step "stepNumber") items /\
    map description (steps g) = map (fun step => field step "description") items.
Proof.
  intros Hrun.
  destruct (generateRepairGuide_cases env d f)
    as [(url & plan & items & Hurl & Hplan & Hsteps)|[_ [e He]]];
    [|congruence].
  exists plan, items. do 2 (split; [done|]).
  rewrite (generateRepairGuide_planned env d f url plan items) in Hrun by done.
  unfold looped in Hrun.
  destruct (image_loop env (length items) 0 items []) as [log r] eqn:Hloop.
  apply image_loop_inv in Hloop as [_ Hout].
  destruct r as [generated|e]; [|discriminate Hrun].
  destruct Hout as [_ (new & -> & Hnew)].
  injection Hrun as <-. simpl. split; [done|].
  clear -Hnew. induction Hnew as [|step t items new [Hn Hd] _ [IHn IHd]]; [done|].
  simpl. unfold field at 1 3. rewrite Hn, Hd. split; congruence.
Qed.

(** The chair scenario: the guide carries the numbers and descriptions of
    the plan. *)
Lemma guide_steps_preserve_plan_steps_chair :
  exists plan items,
    planOf Scenario.chair_env Scenario.chair_description Scenario.chair_photo
      = Some plan /\
    stepsOf plan = Some items /\
    Forall2 preserves items (steps Scenario.chair_guide) /\
    map stepNumber (steps Scenario.chair_guide)
      = map (fun step => field step "stepNumber") items /\
    map description (steps Scenario.chair_guide)
      = map (fun step => field step "description") items.
Proof.
  apply (guide_steps_preserve_plan_steps Scenario.chair_env
           Scenario.chair_description Scenario.chair_photo Scenario.chair_guide).
  vm_compute. reflexivity.
Defined.

Lemma messages_app (l1 l2 : list event) :
  messages (l1 ++ l2) = messages l1 ++ messages l2.
Proof.
  induction l1 as [|[] l1 IH]; simpl; by rewrite ?IH.
Qed.

Lemma messages_prefix (l1 l2 : list event) :
  l1 `prefix_of` l2 -> messages l1 `prefix_of` messages l2.
Proof.
  intros [k ->]. rewrite messages_app. by apply prefix_app_r.
Qed.

(** The loop announces the positions [index + 1], [index + 2], ... in
    order. *)
Lemma messages_loop_events (env : Env) (N : nat) (rest : list json) :
  forall index,
    messages (loop_events env N index rest) =
      map (fun i => generating_message i N) (seq (index + 1) (length rest)).
Proof.
  induction rest as [|step rest IH]; intros index; [done|].
  simpl. rewrite IH. by replace (S index + 1) with (S (index + 1)) by lia.
Qed.

(** In the events of the loop the message of the step at position [i]
    comes right before the request for that step. *)
Lemma loop_events_lookup (env : Env) (N : nat) (rest : list json) :
  forall index i step,
    rest !! i = Some step ->
    loop_events env N index rest !! (2 * i) =
      Some (updateLoadingMessage (generating_message (index + i + 1) N)) /\
    loop_events env N index rest !! (2 * i + 1) =
      Some (GenerateImages (request_of step)
              (generateImages env (index + i) (request_of step))).
Proof.
  induction rest as [|step0 rest IH]; intros index i step Hi; [done|].
  destruct i as [|i].
  - simpl in Hi. injection Hi as ->. simpl.
    by rewrite !Nat.add_0_r.
  - simpl in Hi. destruct (IH (S index) i step Hi) as [Hm Hc].
    replace (2 * S i) with (S (S (2 * i))) by lia.
    replace (index + S i) with (S index + i) by lia.
    simpl in *. by rewrite Hm, Hc.
Qed.

Import Loop.

Lemma completed_le (env : Env) (steps : list json) :
  forall index, completed env index steps <= length steps.
Proof.
  induction steps as [|step rest IH]; intros index; simpl; [lia|].
  destruct (step_completes env index step); [|lia].
  specialize (IH (S index)). lia.
Qed.

Lemma length_loop_events (env : Env) (N : nat) (steps : list json) :
  forall index, length (loop_events env N index steps) = 2 * length steps.
Proof.
  induction steps as [|step rest IH]; intros index; [done|].
  cbn [loop_events length]. rewrite IH. lia.
Qed.

(** The trace of the loop, whatever its outcome: the events of the steps
    that complete, then those of the first step that does not; the loop
    returns exactly when every step completes. *)
Lemma image_loop_trace (env : Env) (rest : list json) :
  forall (N index : nat) (acc : list TutorialStep) log out,
    image_loop env N index rest acc = (log, out) ->
    log = loop_events env N index (take (completed env index rest) rest)
          ++ match rest !! completed env index rest with
             | Some step => attempt_events env N (index + completed env index rest) step
             | None => []
             end /\
    ((exists generated, out = Return generated) <->
     completed env index rest = length rest).
Proof.
  induction rest as [|step rest IH]; intros N index acc log out.
  - simpl. intros [= <- <-]. split; [done|]. split; [done|]. by eexists.
  - rewrite image_loop_cons. cbv zeta.
    assert (Hstop : forall (o : completion (list TutorialStep)) tail,
      step_completes env index step = false ->
      attempt_events env N index step
        = updateLoadingMessage (generating_message (index + 1) N) :: tail ->
      (forall generated, o <> Return generated) ->
      (updateLoadingMessage (generating_message (index + 1) N) :: tail, o) = (log, out) ->
      log = loop_events env N index
              (take (completed env index (step :: rest)) (step :: rest))
            ++ match (step :: rest) !! completed env index (step :: rest) with
               | Some step' =>
                   attempt_events env N (index + completed env index (step :: rest)) step'
               | None => []
               end /\
      ((exists generated, out = Return generated) <->
       completed env index (step :: rest) = length (step :: rest))).
    { intros o tail Hno Hat Ho [= <- <-]. cbn [completed]. rewrite Hno. simpl.
      rewrite Nat.add_0_r, Hat. split; [done|].
      split; [intros [generated ->]; by destruct (Ho generated)|done]. }
    destruct (get step "imagePrompt") as [p|e] eqn:Hp.
    2:{ apply Hstop; [by destruct step|by destruct step|done]. }
    assert (Hnot_null : attempt_events env N index step =
      [updateLoadingMessage (generating_message (index + 1) N);
       GenerateImages (request_of step) (generateImages env index (request_of step))]).
    { by destruct step. }
    assert (Hcompletes : step_completes env index step =
      match generateImages env index (request_of step) with
      | Return response =>
          match generatedImages response with
          | Some (first :: _) =>
              match image first with
              | Some _ => true
              | None => false
              end
          | _ => false
          end
      | Throw _ => false
      end).
    { by destruct step. }
    destruct (generateImages env index (request_of step)) as [response|e] eqn:Hr.
    2:{ apply Hstop; [done|by rewrite Hnot_null|done]. }
    destruct (generatedImages response) as [[|first others]|] eqn:Himgs.
    + apply Hstop; [done|by rewrite Hnot_null|].
      intros generated. unfold image_failure. by destruct (ToString_val _).
    + destruct (image first) as [img|] eqn:Himg.
      2:{ apply Hstop; [done|by rewrite Hnot_null|done]. }
      destruct (image_loop env N (S index) rest _) as [log' r] eqn:Hloop.
      intros [= <- <-]. apply IH in Hloop as [Hlog Hret].
      cbn [completed]. rewrite Hcompletes. cbn [take lookup list_lookup loop_events].
      rewrite Hr.
      replace (index + S (completed env (S index) rest))
        with (S index + completed env (S index) rest) by lia.
      split; [by rewrite Hlog at 1|].
      rewrite Hret. simpl. split; lia.
    + apply Hstop; [done|by rewrite Hnot_null|].
      intros generated. unfold image_failure. by destruct (ToString_val _).
Qed.

Lemma not_among_strings (x : string) (l : list string) :
  forallb (fun m => negb (String.eqb m x)) l = true -> x ∉ l.
Proof.
  intros Hall Hin. rewrite forallb_forall in Hall.
  apply list_elem_of_In, Hall in Hin. by rewrite String.eqb_refl in Hin.
Qed.

(** C5, as stated, fails, on the text and on aborted runs: the messages
    of the chair scenario end in three full stops, and the analyzing
    message written with the ellipsis character is not among them; and the
    run of [Scenario.second_fails_env], over the same plan of three steps,
    stops at the second step and has no message for the third. *)
Lemma progress_messages_as_claimed_are_not_emitted :
  messages (generateRepairGuide Scenario.chair_env Scenario.chair_description
              Scenario.chair_photo).1 =
    ["Analyzing item and planning repair...";
     "Generating image for step 1 of 3...";
     "Generating image for step 2 of 3...";
     "Generating image for step 3 of 3..."] /\
  (Cases.analyzing_with_ellipsis
     ∉ messages (generateRepairGuide Scenario.chair_env
                   Scenario.chair_description Scenario.chair_photo).1) /\
  (Cases.generating_with_ellipsis 1 3
     ∉ messages (generateRepairGuide Scenario.chair_env
                   Scenario.chair_description Scenario.chair_photo).1) /\
  (planOf Scenario.second_fails_env Scenario.chair_description Scenario.chair_photo
     = Some Scenario.chair_plan /\
   stepsOf Scenario.chair_plan = Some Scenario.chair_steps /\
   length Scenario.chair_steps = 3) /\
  messages (generateRepairGuide Scenario.second_fails_env
              Scenario.chair_description Scenario.chair_photo).1 =
    ["Analyzing item and planning repair...";
     "Generating image for step 1 of 3...";
     "Generating image for step 2 of 3..."].
Proof.
  assert (Hm : messages (generateRepairGuide Scenario.chair_env
                           Scenario.chair_description Scenario.chair_photo).1 =
    ["Analyzing item and planning repair...";
     "Generating image for step 1 of 3...";
     "Generating image for step 2 of 3...";
     "Generating image for step 3 of 3..."]) by (vm_compute; reflexivity).
  split; [exact Hm|]. rewrite Hm.
  split; [|split].
  - apply not_among_strings. vm_compute. reflexivity.
  - apply not_among_strings. vm_compute. reflexivity.
  - split; [|vm_compute; reflexivity].
    split; [vm_compute; reflexivity|]. split; reflexivity.
Qed.

(** C5, amended: in a run over a plan of [N] steps the trace is the
    analyzing message, the file read and the planning call, then message
    and image request for each step that completes, then the message, and
    the request, of the first step that does not. So the analyzing
    message comes once, first, before the planning call; the message
    number [i + 1] of [N] is at position [3 + 2 i], right before the image
    request of the step at position [i]; a run that returns announces all
    [N] steps, and a run that aborts announces the steps up to the one it
    aborts at and no later one. The messages end in three full stops. *)
Theorem progress_messages_follow_the_steps (env : Env) (d : string) (f : File)
    (url : string) (plan : json) (items : list json) :
  readAsDataURL env f = Some url ->
  planOf env d f = Some plan ->
  stepsOf plan = Some items ->
  let N := length items in
  let run := generateRepairGuide env d f in
  let c := completed env 0 items in
  let announced := Nat.min (S c) N in
  let step_message (i : nat) : string :=
    "Generating image for step " +:+ pretty i +:+ " of " +:+ pretty N +:+ "..." in
  run.1 =
    planning_events env d f url
    ++ loop_events env N 0 (take c items)
    ++ match items !! c with
       | Some step => attempt_events env N c step
       | None => []
       end /\
  ((exists g, run.2 = Return g) <-> c = N) /\
  messages run.1 =
    "Analyzing item and planning repair..." :: map step_message (seq 1 announced) /\
  run.1 !! 0 = Some (updateLoadingMessage "Analyzing item and planning repair...") /\
  run.1 !! 2 =
    Some (GenerateContent (planning_request d f url)
            (generateContent env (planning_request d f url))) /\
  forall i step, items !! i = Some step -> i < announced ->
    run.1 !! (3 + 2 * i) = Some (updateLoadingMessage (step_message (i + 1))) /\
    (step <> JNull ->
     run.1 !! (3 + 2 * i + 1) =
       Some (GenerateImages (request_of step) (generateImages env i (request_of step)))).
Proof.
  intros Hurl Hplan Hsteps N run c announced step_message. subst run.
  rewrite (generateRepairGuide_planned env d f url plan items) by done.
  unfold looped.
  destruct (image_loop env (length items) 0 items []) as [log r] eqn:Hloop.
  apply image_loop_trace in Hloop as [Hlog Hret]. fold c N in Hlog, Hret.
  simpl in Hlog. cbn [fst snd].
  pose proof (completed_le env items 0) as Hc. fold c N in Hc.
  set (tail := match items !! c with
               | Some step => attempt_events env N c step
               | None => []
               end) in *.
  assert (Htail : c < N ->
    exists step, items !! c = Some step /\ tail = attempt_events env N c step).
  { intros Hlt. destruct (lookup_lt_is_Some_2 items c Hlt) as [step Hstep].
    exists step. subst tail. by rewrite Hstep. }
  assert (Hnone : c = N -> tail = []).
  { intros Heq. subst tail. rewrite lookup_ge_None_2; [done|]. fold N. lia. }
  split; [by rewrite Hlog|].
  split.
  { rewrite <- Hret. split; intros [g Hg].
    - destruct r as [generated|e]; [by eexists|discriminate Hg].
    - subst r. by eexists. }
  assert (Hlen : length (take c items) = c) by (apply length_take_le; lia).
  split.
  { rewrite Hlog, !messages_app, messages_loop_events, Hlen. simpl.
    f_equal. subst announced.
    destruct (decide (c = N)) as [Heq|Hne].
    - rewrite (Hnone Heq), app_nil_r, Nat.min_r by lia. by rewrite Heq.
    - destruct (Htail ltac:(lia)) as (step & _ & ->).
      rewrite Nat.min_l by lia.
      replace (S c) with (c + 1) by lia.
      rewrite seq_app, map_app. simpl.
      replace (c + 1) with (S c) by lia. by destruct step. }
  split; [done|]. split; [done|].
  intros i step Hi Hann.
  assert (HL :
    (loop_events env N 0 (take c items) ++ tail) !! (2 * i) =
      Some (updateLoadingMessage (step_message (i + 1))) /\
    (step <> JNull ->
     (loop_events env N 0 (take c items) ++ tail) !! (2 * i + 1) =
       Some (GenerateImages (request_of step) (generateImages env i (request_of step))))).
  { destruct (decide (i < c)) as [Hlt|Hge].
    - assert (Hi' : take c items !! i = Some step) by (by rewrite lookup_take_lt).
      destruct (loop_events_lookup env N (take c items) 0 i step Hi') as [Hm Hcall].
      simpl in Hm, Hcall.
      rewrite !lookup_app_l by (rewrite length_loop_events, Hlen; lia).
      split; [exact Hm|]. intros _. exact Hcall.
    - assert (i = c) as -> by (subst announced; lia).
      destruct (Htail ltac:(subst announced; lia)) as (step' & Hstep' & ->).
      assert (step' = step) as -> by congruence.
      rewrite !lookup_app_r by (rewrite length_loop_events, Hlen; lia).
      rewrite length_loop_events, Hlen.
      replace (2 * c - 2 * c) with 0 by lia.
      replace (2 * c + 1 - 2 * c) with 1 by lia.
      unfold attempt_events. split; [done|].
      intros Hnn. by destruct step. }
  rewrite Hlog. exact HL.
Qed.

(** The chair scenario with no image for the second request: two of the
    three steps are announced. *)
Lemma progress_messages_follow_the_steps_second :
  let env := Scenario.second_fails_env in
  let d := Scenario.chair_description in
  let f := Scenario.chair_photo in
  let url := Scenario.chair_data_url in
  let items := Scenario.chair_steps in
  let N := 3 in
  let run := generateRepairGuide env d f in
  let c := 1 in
  let announced := 2 in
  let step_message (i : nat) : string :=
    "Generating image for step " +:+ pretty i +:+ " of " +:+ pretty N +:+ "..." in
  run.1 =
    planning_events env d f url
    ++ loop_events env N 0 (take c items)
    ++ match items !! c with
       | Some step => attempt_events env N c step
       | None => []
       end /\
  ((exists g, run.2 = Return g) <-> c = N) /\
  messages run.1 =
    "Analyzing item and planning repair..." :: map step_message (seq 1 announced) /\
  run.1 !! 0 = Some (updateLoadingMessage "Analyzing item and planning repair...") /\
  run.1 !! 2 =
    Some (GenerateContent (planning_request d f url)
            (generateContent env (planning_request d f url))) /\
  forall i step, items !! i = Some step -> i < announced ->
    run.1 !! (3 + 2 * i) = Some (updateLoadingMessage (step_message (i + 1))) /\
    (step <> JNull ->
     run.1 !! (3 + 2 * i + 1) =
       Some (GenerateImages (request_of step) (generateImages env i (request_of step)))).
Proof.
  apply (progress_messages_follow_the_steps Scenario.second_fails_env
           Scenario.chair_description Scenario.chair_photo
           Scenario.chair_data_url Scenario.chair_plan Scenario.chair_steps);
    vm_compute; reflexivity.
Defined.

(** The progress messages of the chair scenario, evaluated. *)
Example chair_messages :
  messages (generateRepairGuide Scenario.chair_env Scenario.chair_description
              Scenario.chair_photo).1 =
    ["Analyzing item and planning repair...";
     "Generating image for step 1 of 3...";
     "Generating image for step 2 of 3...";
     "Generating image for step 3 of 3..."].
Proof. vm_compute. reflexivity. Qed.

(** ** Specified properties of the shell *)

Import App.

(** The progress messages change the loading message and nothing else. *)
Lemma progress_keeps_slots (log : list event) :
  forall s,
    Forall (fun t =>
              problemDescription t = problemDescription s /\
              imageFile t = imageFile s /\
              previewUrl t = previewUrl s /\
              guide t = guide s /\
              isLoading t = isLoading s /\
              error t = error s /\
              fileInputRef t = fileInputRef s)
           (progress log s).
Proof.
  induction log as [|e log IH]; intros s; [constructor|].
  destruct e; simpl; try apply IH.
  constructor; [done|].
  eapply Forall_impl; [apply IH|]. by intros t.
Qed.

Lemma progress_last_keeps_slots (log : list event) (s : State) :
  let t := List.last (progress log s) s in
  guide t = guide s /\ isLoading t = isLoading s /\ error t = error s.
Proof.
  pose proof (progress_keeps_slots log s) as Hall.
  destruct (progress log s) as [|t0 l] eqn:Hp; [done|].
  assert (Hin : List.In (List.last (t0 :: l) s) (t0 :: l)).
  { destruct (exists_last (l:=t0 :: l)) as (l' & a & Heq); [done|].
    rewrite Heq, last_last. apply in_or_app. right. by left. }
  rewrite Forall_forall in Hall. apply list_elem_of_In in Hin.
  specialize (Hall _ Hin). simpl. intuition.
Qed.

(** The handler on a complete form. *)
Lemma handleGenerateGuide_complete (env : Env) (s : State) (file : File)
    (c : ascii) (rest : string) :
  problemDescription s = String c rest ->
  imageFile s = Some file ->
  let started :=
    unmounted
      (setLoadingMessage starting_message
         (setGuide None (setIsLoading true (setError None s)))) in
  let run := generateRepairGuide env (problemDescription s) file in
  let running := progress run.1 started in
  let settled :=
    match run.2 with
    | Return result => setGuide (Some result) (List.last running started)
    | Throw e => setError (Some (display e)) (List.last running started)
    end in
  handleGenerateGuide env s =
    started
    :: running ++ [remounted (setLoadingMessage "" (setIsLoading false settled))].
Proof.
  intros Hd Hf. unfold handleGenerateGuide. rewrite Hf.
  destruct (problemDescription s) eqn:Hd'; [discriminate Hd|].
  rewrite <- Hd'. by destruct (generateRepairGuide env _ file).
Qed.



(** C10: on a complete form the handler empties the guide slot before the
    orchestrator is called, the slot stays empty while it runs, and after a
    throw the slot is still empty, the error is stored and a signed-in user
    sees the form, whatever guide the state held before. *)
Theorem generate_discards_previous_guide (env : Env) (s : State) (file : File)
    (c : ascii) (rest : string) :
  problemDescription s = String c rest ->
  imageFile s = Some file ->
  exists started running settled,
    handleGenerateGuide env s = started :: running ++ [settled] /\
    guide started = None /\
    Forall (fun t => guide t = None) running /\
    forall e,
      (generateRepairGuide env (problemDescription s) file).2 = Throw e ->
      guide settled = None /\
      error settled = Some (display e) /\
      forall auth,
        isAuthLoading auth = false -> isAuthenticated auth = true ->
        render auth settled = Form.
Proof.
  intros Hd Hf.
  rewrite (handleGenerateGuide_complete env s file c rest Hd Hf). cbv zeta.
  set (started := unmounted _).
  eexists started, _, _. split; [reflexivity|].
  split; [reflexivity|]. split.
  - eapply Forall_impl; [apply progress_keeps_slots|].
    intros t (_ & _ & _ & Hg & _). by rewrite Hg.
  - intros e He. rewrite He.
    destruct (progress_last_keeps_slots
                (generateRepairGuide env (problemDescription s) file).1 started)
      as (Hg & Hl & _).
    simpl in *. rewrite Hg. do 2 (split; [done|]).
    intros auth Hal Hau. unfold render. rewrite Hal, Hau. simpl. by rewrite Hg.
Qed.

(** A state that still holds the guide of an earlier run. *)
Lemma generate_discards_previous_guide_second :
  exists started running settled,
    handleGenerateGuide Scenario.second_fails_env Scenario.guide_chair_shown
      = started :: running ++ [settled] /\
    guide started = None /\
    Forall (fun t => guide t = None) running /\
    forall e,
      (generateRepairGuide Scenario.second_fails_env
         (problemDescription Scenario.guide_chair_shown)
         Scenario.chair_photo).2 = Throw e ->
      guide settled = None /\
      error settled = Some (display e) /\
      forall auth,
        isAuthLoading auth = false -> isAuthenticated auth = true ->
        render auth settled = Form.
Proof.
  apply (generate_discards_previous_guide Scenario.second_fails_env
           Scenario.guide_chair_shown Scenario.chair_photo
           "C"%char "racked wooden chair leg"); reflexivity.
Defined.

(** The state that scenario ends in, evaluated: the old guide is gone, the
    error of step 2 is stored, and the form is back with an empty file
    input. *)
Example second_fails_after_generate :
  after_generate Scenario.second_fails_env Scenario.guide_chair_shown =
    {| problemDescription := Scenario.chair_description;
       imageFile := Some Scenario.chair_photo;
       previewUrl := Some "blob:preview-1";
       guide := None;
       isLoading := false;
       loadingMessage := "";
       error := Some "Failed to generate an image for step 2.";
       fileInputRef := Some "" |}.
Proof. vm_compute. reflexivity. Qed.

(** C7: from the result view, the reset puts the description, the image,
    the preview, the guide and the error back to the values they start
    with, and the shell shows the form. *)
Theorem reset_returns_to_form (auth : Auth0) (s : State) :
  render auth s = Result ->
  let s' := handleReset s in
  problemDescription s' = "" /\
  imageFile s' = None /\
  previewUrl s' = None /\
  guide s' = None /\
  error s' = None /\
  (problemDescription s', imageFile s', previewUrl s', guide s', error s') =
    (problemDescription initial, imageFile initial, previewUrl initial,
     guide initial, error initial) /\
  render auth s' = Form.
Proof.
  unfold render, Result, Form. simpl.
  destruct (isAuthLoading auth); [discriminate|].
  destruct (isAuthenticated auth); [|discriminate]. simpl.
  intros [= _ Hl _]. rewrite Hl. by repeat split.
Qed.

(** The reset from the result view of the chair scenario. *)
Lemma reset_returns_to_form_chair :
  let s' := handleReset Scenario.guide_chair_shown in
  problemDescription s' = "" /\
  imageFile s' = None /\
  previewUrl s' = None /\
  guide s' = None /\
  error s' = None /\
  (problemDescription s', imageFile s', previewUrl s', guide s', error s') =
    (problemDescription initial, imageFile initial, previewUrl initial,
     guide initial, error initial) /\
  render Scenario.signed_in s' = Form.
Proof.
  apply (reset_returns_to_form Scenario.signed_in Scenario.guide_chair_shown).
  reflexivity.
Defined.

(** C8: a file of 4194304 bytes is taken, with its preview, and the error
    is cleared; a file of 4194305 bytes changes the error slot alone, and
    the message is shown when the form is. *)
Theorem file_size_boundary (createObjectURL : File -> string) (s : State)
    (mime : string) :
  let accepted := {| size := 4194304; type := mime |} in
  let rejected := {| size := 4194305; type := mime |} in
  handleFileChange createObjectURL (Some accepted) s =
    {| problemDescription := problemDescription s;
       imageFile := Some accepted;
       previewUrl := Some (createObjectURL accepted);
       guide := guide s;
       isLoading := isLoading s;
       loadingMessage := loadingMessage s;
       error := None;
       fileInputRef := fileInputRef s |} /\
  handleFileChange createObjectURL (Some rejected) s =
    {| problemDescription := problemDescription s;
       imageFile := imageFile s;
       previewUrl := previewUrl s;
       guide := guide s;
       isLoading := isLoading s;
       loadingMessage := loadingMessage s;
       error := Some too_large_message;
       fileInputRef := fileInputRef s |} /\
  forall auth,
    render auth s = Form ->
    shown_error auth (handleFileChange createObjectURL (Some rejected) s) =
      Some too_large_message.
Proof.
  intros accepted rejected. split; [reflexivity|]. split; [reflexivity|].
  intros auth Hform. unfold shown_error.
  change (render auth (handleFileChange createObjectURL (Some rejected) s))
    with (render auth s).
  by rewrite Hform.
Qed.

(** The two files offered to a form that already holds an image. *)
Lemma file_size_boundary_chair :
  let accepted := {| size := 4194304; type := "image/jpeg" |} in
  let rejected := {| size := 4194305; type := "image/jpeg" |} in
  let s := setGuide None Scenario.guide_chair_shown in
  handleFileChange Scenario.blob_url (Some accepted) s =
    {| problemDescription := problemDescription s;
       imageFile := Some accepted;
       previewUrl := Some (Scenario.blob_url accepted);
       guide := guide s;
       isLoading := isLoading s;
       loadingMessage := loadingMessage s;
       error := None;
       fileInputRef := fileInputRef s |} /\
  handleFileChange Scenario.blob_url (Some rejected) s =
    {| problemDescription := problemDescription s;
       imageFile := imageFile s;
       previewUrl := previewUrl s;
       guide := guide s;
       isLoading := isLoading s;
       loadingMessage := loadingMessage s;
       error := Some too_large_message;
       fileInputRef := fileInputRef s |} /\
  shown_error Scenario.signed_in
    (handleFileChange Scenario.blob_url (Some rejected) s) =
    Some too_large_message.
Proof.
  pose proof (file_size_boundary Scenario.blob_url
                (setGuide None Scenario.guide_chair_shown) "image/jpeg")
    as (Ha & Hr & Hshown).
  split; [exact Ha|]. split; [exact Hr|].
  apply (Hshown Scenario.signed_in). reflexivity.
Defined.

(** The size test at large: a file is taken exactly when it has at most
    4194304 bytes. *)
Lemma handleFileChange_size (createObjectURL : File -> string) (s : State)
    (file : File) :
  handleFileChange createObjectURL (Some file) s =
    if (size file <=? 4194304)%N then
      setError None
        (setPreviewUrl (Some (createObjectURL file)) (setImageFile (Some file) s))
    else setError (Some too_large_message) s.
Proof.
  unfold handleFileChange.
  change (4 * 1024 * 1024)%N with 4194304%N.
  destruct (N.ltb_spec 4194304 (size file)), (N.leb_spec (size file) 4194304);
    try reflexivity; lia.
Qed.

(** ** Further properties of the orchestrator *)

Import Page.

(** The failures before the loop. When the reader fails on the file, the
    run ends after the analyzing message and the read, with the value the
    reader rejected with, and the shell, which finds no [Error] in it,
    stores the unknown-error text. No service is called. *)
Theorem unreadable_file_is_unknown_error (env : Env) (s : State) (f : File)
    (c : ascii) (rest : string) :
  truthy (API_KEY env) = true ->
  readAsDataURL env f = None ->
  problemDescription s = String c rest ->
  imageFile s = Some f ->
  generateRepairGuide env (problemDescription s) f =
    ([updateLoadingMessage analyzing_message; FileRead f None], Throw NonError) /\
  error (after_generate env s) = Some unknown_error_message /\
  guide (after_generate env s) = None /\
  isLoading (after_generate env s) = false.
Proof.
  intros Hkey Hread Hd Hf.
  assert (Hrun : generateRepairGuide env (problemDescription s) f =
    ([updateLoadingMessage analyzing_message; FileRead f None], Throw NonError)).
  { unfold generateRepairGuide, fileToBase64. rewrite Hkey, Hread. reflexivity. }
  split; [exact Hrun|].
  unfold after_generate.
  rewrite (handleGenerateGuide_complete env s f c rest Hd Hf). cbv zeta.
  rewrite app_comm_cons, last_last, Hrun. by simpl.
Qed.

(** A complete form, and a reader that fails. *)
Lemma unreadable_file_is_unknown_error_chair :
  generateRepairGuide Cases.unreadable_env
    (problemDescription Cases.complete_form) Scenario.chair_photo =
    ([updateLoadingMessage analyzing_message; FileRead Scenario.chair_photo None],
     Throw NonError) /\
  error (after_generate Cases.unreadable_env Cases.complete_form)
    = Some unknown_error_message /\
  guide (after_generate Cases.unreadable_env Cases.complete_form) = None /\
  isLoading (after_generate Cases.unreadable_env Cases.complete_form) = false.
Proof.
  apply (unreadable_file_is_unknown_error Cases.unreadable_env
           Cases.complete_form Scenario.chair_photo
           "C"%char "racked wooden chair leg"); reflexivity.
Defined.

(** A throw of the planning call is passed on as it is: the run ends with
    the call, nothing is logged or retried, and the image service is not
    called. *)
Theorem planning_throw_is_passed_on (env : Env) (d : string) (f : File)
    (url : string) (e : exn) :
  truthy (API_KEY env) = true ->
  readAsDataURL env f = Some url ->
  generateContent env (planning_request d f url) = Throw e ->
  generateRepairGuide env d f =
    ([updateLoadingMessage analyzing_message;
      FileRead f (Some url);
      GenerateContent (planning_request d f url) (Throw e)],
     Throw e).
Proof.
  intros Hkey Hurl Hthrow.
  unfold generateRepairGuide, fileToBase64, planning_request, getMimeType in *.
  rewrite Hkey, Hurl. cbn -[trim nth_error split]. rewrite Hthrow. reflexivity.
Qed.

(** The planning call rejected with a network error. *)
Lemma planning_throw_is_passed_on_offline :
  generateRepairGuide Cases.offline_env Scenario.chair_description
    Scenario.chair_photo =
    ([updateLoadingMessage analyzing_message;
      FileRead Scenario.chair_photo (Some Scenario.chair_data_url);
      GenerateContent
        (planning_request Scenario.chair_description Scenario.chair_photo
           Scenario.chair_data_url)
        (Throw (Error "Failed to fetch"))],
     Throw (Error "Failed to fetch")).
Proof.
  apply (planning_throw_is_passed_on Cases.offline_env
           Scenario.chair_description Scenario.chair_photo
           Scenario.chair_data_url (Error "Failed to fetch")); reflexivity.
Defined.

(** A payload that parses and whose [steps] is no array (absent, [null],
    or any other value) ends the run with a [TypeError] right after the
    planning call: the payload is not logged, the unexpected-format error
    is not used, and the image service is not called. *)
Theorem steps_not_an_array_is_type_error (env : Env) (d : string) (f : File)
    (url : string) (plan : json) :
  readAsDataURL env f = Some url ->
  planOf env d f = Some plan ->
  stepsOf plan = None ->
  (generateRepairGuide env d f).1 = planning_events env d f url /\
  exists message, (generateRepairGuide env d f).2 = Throw (TypeError message).
Proof.
  unfold planOf, stepsOf, generateRepairGuide, planning_events, fileToBase64,
    planning_request, getMimeType.
  intros Hurl. rewrite Hurl.
  destruct (truthy (API_KEY env)); [|done]. cbn -[trim nth_error split].
  destruct (generateContent env _) as [[text|]|e]; try done.
  cbn -[trim nth_error split]. intros ->. cbn -[trim nth_error split].
  destruct plan as [| | | | |fields]; cbn -[trim nth_error split];
    try (intros _; split; [reflexivity|eexists; reflexivity]).
  destruct (assoc "steps" fields) as [[]|]; cbn -[trim nth_error split];
    try done; intros _; (split; [reflexivity|eexists; reflexivity]).
Qed.

(** The planning response [{}]. *)
Lemma steps_not_an_array_is_type_error_stepless :
  (generateRepairGuide Cases.stepless_env Scenario.chair_description
     Scenario.chair_photo).1 =
    planning_events Cases.stepless_env Scenario.chair_description
      Scenario.chair_photo Scenario.chair_data_url /\
  exists message,
    (generateRepairGuide Cases.stepless_env Scenario.chair_description
       Scenario.chair_photo).2 = Throw (TypeError message).
Proof.
  apply (steps_not_an_array_is_type_error Cases.stepless_env
           Scenario.chair_description Scenario.chair_photo
           Scenario.chair_data_url Cases.stepless_plan); reflexivity.
Defined.

(** A request of the loop that the image service rejects is the last event
    of the loop and the loop throws what the service threw. *)
Lemma image_loop_rejected (env : Env) (rest : list json) :
  forall (N index : nat) (acc : list TutorialStep) log out pre req e post,
    image_loop env N index rest acc = (log, out) ->
    log = pre ++ GenerateImages req (Throw e) :: post ->
    post = [] /\ out = Throw e /\
    exists step, rest !! image_calls pre = Some step /\ req = request_of step.
Proof.
  induction rest as [|step rest IH];
    intros N index acc log out pre req e post Hrun Hlog.
  - simpl in Hrun. injection Hrun as <- <-. by destruct pre.
  - rewrite image_loop_cons in Hrun. cbv zeta in Hrun.
    destruct (get step "imagePrompt") as [p|e0] eqn:Hp.
    2:{ injection Hrun as <- <-. by destruct pre as [|? [|? ?]]. }
    destruct (generateImages env index (request_of step)) as [response|e0] eqn:Hr.
    2:{ injection Hrun as <- <-.
        destruct pre as [|? [|? [|? ?]]]; simpl in Hlog; simplify_eq.
        split; [done|]. split; [done|]. by exists step. }
    assert (Hend : forall (o : completion (list TutorialStep)),
      ([updateLoadingMessage (generating_message (index + 1) N);
        GenerateImages (request_of step) (Return response)], o) = (log, out) ->
      post = [] /\ out = Throw e /\
      exists step', (step :: rest) !! image_calls pre = Some step' /\
                    req = request_of step').
    { intros o [= <- <-].
      destruct pre as [|? [|? [|? ?]]]; simpl in Hlog; simplify_eq. }
    destruct (generatedImages response) as [[|first others]|] eqn:Himgs;
      [exact (Hend _ Hrun)| |exact (Hend _ Hrun)].
    destruct (image first) as [img|]; [|exact (Hend _ Hrun)].
    destruct (image_loop env N (S index) rest _) as [log' r] eqn:Hloop.
    injection Hrun as <- <-.
    destruct pre as [|e1 [|e2 pre']]; simpl in Hlog; simplify_eq.
    destruct (IH _ _ _ _ _ _ _ _ _ Hloop eq_refl) as (-> & -> & step' & Hat & ->).
    split; [done|]. split; [done|]. exists step'. split; [|done].
    rewrite !image_calls_cons. simpl. done.
Qed.

(** A throw of the image call is passed on as it is: the rejected request
    is the last event of the run, so it is not retried and no later step is
    asked for, and the run throws what the service threw. *)
Theorem image_throw_is_passed_on (env : Env) (d : string) (f : File)
    (pre post : list event) (req : ImagesRequest) (e : exn) :
  (generateRepairGuide env d f).1 = pre ++ GenerateImages req (Throw e) :: post ->
  post = [] /\
  (generateRepairGuide env d f).2 = Throw e /\
  exists plan items step,
    planOf env d f = Some plan /\
    stepsOf plan = Some items /\
    items !! image_calls pre = Some step /\
    req = request_of step.
Proof.
  intros Hlog.
  destruct (generateRepairGuide_cases env d f)
    as [(url & plan & items & Hurl & Hplan & Hsteps)|[Hnone _]].
  2:{ rewrite Hlog, image_calls_app, image_calls_cons in Hnone.
      simpl in Hnone. lia. }
  rewrite (generateRepairGuide_planned env d f url plan items) in * by done.
  unfold looped, planning_events in *.
  destruct (image_loop env (length items) 0 items []) as [log r] eqn:Hloop.
  simpl in Hlog.
  destruct pre as [|e1 [|e2 [|e3 pre']]]; simpl in Hlog; simplify_eq.
  destruct (image_loop_rejected env _ _ _ _ _ _ _ _ _ _ Hloop eq_refl)
    as (-> & -> & step & Hat & ->).
  split; [done|]. split; [done|].
  exists plan, items, step. rewrite !image_calls_cons. by simpl.
Qed.

(** The chair scenario with the second image request rejected. *)
Lemma image_throw_is_passed_on_second :
  @nil event = [] /\
  (generateRepairGuide Cases.second_rejected_env Scenario.chair_description
     Scenario.chair_photo).2 = Throw (Error "quota exceeded") /\
  exists plan items step,
    planOf Cases.second_rejected_env Scenario.chair_description
      Scenario.chair_photo = Some plan /\
    stepsOf plan = Some items /\
    items !! image_calls
      (take 6 (generateRepairGuide Cases.second_rejected_env
                 Scenario.chair_description Scenario.chair_photo).1)
      = Some step /\
    {| prompt := Some (JStr "Glue pressed into a cracked chair leg");
       config := image_config |} = request_of step.
Proof.
  apply (image_throw_is_passed_on Cases.second_rejected_env
           Scenario.chair_description Scenario.chair_photo
           (take 6 (generateRepairGuide Cases.second_rejected_env
                      Scenario.chair_description Scenario.chair_photo).1)
           []
           {| prompt := Some (JStr "Glue pressed into a cracked chair leg");
              config := image_config |}
           (Error "quota exceeded")).
  vm_compute. reflexivity.
Defined.

Lemma image_calls_loop_events (env : Env) (N : nat) (rest : list json) :
  forall index, image_calls (loop_events env N index rest) = length rest.
Proof.
  induction rest as [|step rest IH]; intros index; [done|].
  cbn [loop_events]. rewrite !image_calls_cons. simpl. by rewrite IH.
Qed.

Lemma image_calls_prefix (l1 l2 : list event) :
  l1 `prefix_of` l2 -> image_calls l1 <= image_calls l2.
Proof. intros [k ->]. rewrite image_calls_app. lia. Qed.

Lemma content_calls_cons (e : event) (log : list event) :
  content_calls (e :: log) =
    if is_content_call e then S (content_calls log) else content_calls log.
Proof.
  unfold content_calls. rewrite filter_cons.
  destruct (is_content_call e); by case_decide.
Qed.

Lemma content_calls_app (l1 l2 : list event) :
  content_calls (l1 ++ l2) = content_calls l1 + content_calls l2.
Proof. unfold content_calls. by rewrite filter_app, length_app. Qed.

Lemma content_calls_loop_events (env : Env) (N : nat) (rest : list json) :
  forall index, content_calls (loop_events env N index rest) = 0.
Proof.
  induction rest as [|step rest IH]; intros index; [done|].
  cbn [loop_events]. rewrite !content_calls_cons. simpl. by rewrite IH.
Qed.

(** A run that has a plan has read the file. *)
Lemma planOf_read (env : Env) (d : string) (f : File) (plan : json) :
  planOf env d f = Some plan -> exists url, readAsDataURL env f = Some url.
Proof.
  unfold planOf. destruct (truthy (API_KEY env)); [|done].
  destruct (readAsDataURL env f) as [url|]; [|done]. by exists url.
Qed.

(** The number of calls. A run over a plan calls the planning service once
    and the image service at most once for each plan step; a run that
    returns called it exactly once for each step of the guide. *)
Theorem one_image_call_for_each_step (env : Env) (d : string) (f : File)
    (plan : json) (items : list json) :
  planOf env d f = Some plan ->
  stepsOf plan = Some items ->
  content_calls (generateRepairGuide env d f).1 = 1 /\
  image_calls (generateRepairGuide env d f).1 <= length items /\
  forall g, (generateRepairGuide env d f).2 = Return g ->
    image_calls (generateRepairGuide env d f).1 = length (steps g).
Proof.
  intros Hplan Hsteps.
  destruct (planOf_read env d f plan Hplan) as [url Hurl].
  rewrite (generateRepairGuide_planned env d f url plan items) by done.
  unfold looped.
  destruct (image_loop env (length items) 0 items []) as [log r] eqn:Hloop.
  apply image_loop_inv in Hloop as [Hpre Hout]. simpl.
  rewrite !content_calls_cons. simpl.
  destruct Hpre as [k Hk].
  assert (Hc : content_calls log = 0).
  { pose proof (content_calls_loop_events env (length items) items 0) as H0.
    rewrite Hk, content_calls_app in H0. lia. }
  rewrite Hc. split; [done|].
  rewrite !image_calls_cons. simpl.
  split.
  { rewrite <- (image_calls_loop_events env (length items) items 0).
    apply image_calls_prefix. by exists k. }
  intros g Hg. destruct r as [generated|e]; [|discriminate Hg].
  destruct Hout as [-> (new & -> & Hnew)]. injection Hg as <-. simpl.
  by rewrite image_calls_loop_events, (Forall2_length _ _ _ Hnew).
Qed.

(** The chair scenario. *)
Lemma one_image_call_for_each_step_chair :
  let run :=
    generateRepairGuide Scenario.chair_env Scenario.chair_description
      Scenario.chair_photo in
  content_calls run.1 = 1 /\
  image_calls run.1 <= length Scenario.chair_steps /\
  forall g, run.2 = Return g -> image_calls run.1 = length (steps g).
Proof.
  apply (one_image_call_for_each_step Scenario.chair_env
           Scenario.chair_description Scenario.chair_photo
           Scenario.chair_plan Scenario.chair_steps); reflexivity.
Defined.

Lemma image_calls_elem (req : ImagesRequest) (resp : completion ImagesResponse)
    (log : list event) :
  GenerateImages req resp ∈ log -> 0 < image_calls log.
Proof.
  intros (l1 & l2 & ->)%list_elem_of_split.
  rewrite image_calls_app, image_calls_cons. simpl. lia.
Qed.

Lemma loop_events_elem (env : Env) (N : nat) (rest : list json) :
  forall index req resp,
    GenerateImages req resp ∈ loop_events env N index rest ->
    exists step, step ∈ rest /\ req = request_of step.
Proof.
  induction rest as [|step rest IH]; intros index req resp Hin.
  - by apply elem_of_nil in Hin.
  - cbn [loop_events] in Hin.
    apply elem_of_cons in Hin as [Hin|Hin]; [discriminate Hin|].
    apply elem_of_cons in Hin as [Hin|Hin].
    + injection Hin as -> _. exists step. split; [by left|done].
    + destruct (IH _ _ _ Hin) as (step' & Hstep' & ->).
      exists step'. split; [by right|done].
Qed.

(** What the image service is asked: every request of a run is for one
    JPEG image in 4:3, and its prompt is the [imagePrompt] of a step of the
    plan, with nothing of the description or of the other fields in it. *)
Theorem image_requests_are_fixed (env : Env) (d : string) (f : File)
    (req : ImagesRequest) (resp : completion ImagesResponse) :
  GenerateImages req resp ∈ (generateRepairGuide env d f).1 ->
  numberOfImages (config req) = 1 /\
  outputMimeType (config req) = "image/jpeg" /\
  aspectRatio (config req) = "4:3" /\
  exists plan items step,
    planOf env d f = Some plan /\
    stepsOf plan = Some items /\
    step ∈ items /\
    prompt req = field step "imagePrompt".
Proof.
  intros Hin.
  destruct (generateRepairGuide_cases env d f)
    as [(url & plan & items & Hurl & Hplan & Hsteps)|[Hnone _]].
  2:{ apply image_calls_elem in Hin. lia. }
  rewrite (generateRepairGuide_planned env d f url plan items) in Hin by done.
  unfold looped in Hin.
  destruct (image_loop env (length items) 0 items []) as [log r] eqn:Hloop.
  apply image_loop_inv in Hloop as [[k Hk] _]. simpl in Hin.
  do 3 (apply elem_of_cons in Hin as [Hin|Hin]; [discriminate Hin|]).
  assert (Hin' : GenerateImages req resp ∈ loop_events env (length items) 0 items).
  { rewrite Hk. apply elem_of_app. by left. }
  destruct (loop_events_elem _ _ _ _ _ _ Hin') as (step & Hstep & ->).
  do 3 (split; [reflexivity|]).
  by exists plan, items, step.
Qed.

(** The second request of the chair scenario. *)
Lemma image_requests_are_fixed_chair :
  let req :=
    {| prompt := Some (JStr "Glue pressed into a cracked chair leg");
       config := image_config |} in
  numberOfImages (config req) = 1 /\
  outputMimeType (config req) = "image/jpeg" /\
  aspectRatio (config req) = "4:3" /\
  exists plan items step,
    planOf Scenario.chair_env Scenario.chair_description Scenario.chair_photo
      = Some plan /\
    stepsOf plan = Some items /\
    step ∈ items /\
    prompt req = field step "imagePrompt".
Proof.
  apply (image_requests_are_fixed Scenario.chair_env Scenario.chair_description
           Scenario.chair_photo _ (Return (Scenario.one_image "AAAA"))).
  vm_compute. do 6 right. left.
Defined.

(** The safety warning of a guide is [plan.safetyWarning] as parsed: the
    text, [null], or undefined when the plan has none. *)
Theorem safety_warning_is_carried_over (env : Env) (d : string) (f : File)
    (g : RepairGuide) :
  (generateRepairGuide env d f).2 = Return g ->
  exists plan,
    planOf env d f = Some plan /\
    safetyWarning g = field plan "safetyWarning".
Proof.
  intros Hrun.
  destruct (generateRepairGuide_cases env d f)
    as [(url & plan & items & Hurl & Hplan & Hsteps)|[_ [e He]]];
    [|congruence].
  exists plan. split; [done|].
  rewrite (generateRepairGuide_planned env d f url plan items) in Hrun by done.
  unfold looped in Hrun.
  destruct (image_loop env (length items) 0 items []) as [log [generated|e]];
    [|discriminate Hrun].
  by injection Hrun as <-.
Qed.

(** The one-step plan with its warning. *)
Lemma safety_warning_is_carried_over_short :
  exists plan,
    planOf Scenario.short_env Scenario.chair_description Scenario.chair_photo
      = Some plan /\
    Some (JStr "Wear gloves.") = field plan "safetyWarning".
Proof.
  apply (safety_warning_is_carried_over Scenario.short_env
           Scenario.chair_description Scenario.chair_photo
           {| safetyWarning := Some (JStr "Wear gloves.");
              steps := [{| stepNumber := Some (JNum 1);
                           description := Some (JStr "Glue the leg.");
                           imageUrl := "data:image/jpeg;base64,AAAA" |}] |}).
  vm_compute. reflexivity.
Defined.

(** A plan with an empty [steps] gives a guide without steps: the run
    returns right after the planning call and asks for no image. *)
Theorem empty_plan_gives_empty_guide (env : Env) (d : string) (f : File)
    (url : string) (plan : json) :
  readAsDataURL env f = Some url ->
  planOf env d f = Some plan ->
  stepsOf plan = Some [] ->
  generateRepairGuide env d f =
    (planning_events env d f url,
     Return {| safetyWarning := field plan "safetyWarning"; steps := [] |}).
Proof.
  intros Hurl Hplan Hsteps.
  rewrite (generateRepairGuide_planned env d f url plan []) by done.
  unfold looped. cbn [image_loop ret length assemble]. by rewrite app_nil_r.
Qed.

(** The plan with the warning and no step. *)
Lemma empty_plan_gives_empty_guide_gloves :
  generateRepairGuide Cases.empty_env Scenario.chair_description
    Scenario.chair_photo =
    (planning_events Cases.empty_env Scenario.chair_description
       Scenario.chair_photo Scenario.chair_data_url,
     Return {| safetyWarning := field Cases.empty_plan "safetyWarning";
               steps := [] |}).
Proof.
  apply (empty_plan_gives_empty_guide Cases.empty_env
           Scenario.chair_description Scenario.chair_photo
           Scenario.chair_data_url Cases.empty_plan); reflexivity.
Defined.

(** The steps the loop pushes carry, each, the first image of the response
    to the request of its plan step. *)
Lemma image_loop_urls (env : Env) (rest : list json) :
  forall (N index : nat) (acc : list TutorialStep) log generated,
    image_loop env N index rest acc = (log, Return generated) ->
    exists new,
      generated = acc ++ new /\
      forall i t, new !! i = Some t ->
        exists step resp first others img,
          rest !! i = Some step /\
          generateImages env (index + i) (request_of step) = Return resp /\
          generatedImages resp = Some (first :: others) /\
          image first = Some img /\
          imageUrl t = "data:image/jpeg;base64," +:+
                       match imageBytes img with
                       | Some b => b
                       | None => "undefined"
                       end.
Proof.
  induction rest as [|step rest IH]; intros N index acc log generated Hrun.
  - simpl in Hrun. injection Hrun as <- <-. exists []. rewrite app_nil_r.
    split; [done|]. intros i t Hi. by rewrite lookup_nil in Hi.
  - rewrite image_loop_cons in Hrun. cbv zeta in Hrun.
    destruct (get step "imagePrompt") as [p|e]; [|discriminate Hrun].
    destruct (generateImages env index (request_of step)) as [resp|e] eqn:Hr;
      [|discriminate Hrun].
    destruct (generatedImages resp) as [[|first others]|] eqn:Himgs.
    + unfold image_failure in Hrun. destruct (ToString_val _); discriminate Hrun.
    + destruct (image first) as [img|] eqn:Himg; [|discriminate Hrun].
      destruct (image_loop env N (S index) rest _) as [log' r] eqn:Hloop.
      injection Hrun as <- ->.
      destruct (IH _ _ _ _ _ Hloop) as (new & -> & Hnew).
      eexists (_ :: new). rewrite <- app_assoc. split; [reflexivity|].
      intros [|i] t Hi.
      * simpl in Hi. injection Hi as <-.
        exists step, resp, first, others, img. rewrite Nat.add_0_r. by simpl.
      * simpl in Hi. destruct (Hnew i t Hi)
          as (step' & resp' & first' & others' & img' & H1 & H2 & H3 & H4 & H5).
        exists step', resp', first', others', img'.
        replace (index + S i) with (S index + i) by lia. by simpl.
    + unfold image_failure in Hrun. destruct (ToString_val _); discriminate Hrun.
Qed.

(** The image of a tutorial step is a JPEG data URL made of the bytes of
    the first image the service returned for the request of the plan step
    at the same position; further images of the response are ignored. *)
Theorem image_url_wraps_first_image (env : Env) (d : string) (f : File)
    (g : RepairGuide) (i : nat) (t : TutorialStep) :
  (generateRepairGuide env d f).2 = Return g ->
  steps g !! i = Some t ->
  exists plan items step resp first others img,
    planOf env d f = Some plan /\
    stepsOf plan = Some items /\
    items !! i = Some step /\
    generateImages env i (request_of step) = Return resp /\
    generatedImages resp = Some (first :: others) /\
    image first = Some img /\
    imageUrl t = "data:image/jpeg;base64," +:+
                 match imageBytes img with
                 | Some b => b
                 | None => "undefined"
                 end.
Proof.
  intros Hrun Hi.
  destruct (generateRepairGuide_cases env d f)
    as [(url & plan & items & Hurl & Hplan & Hsteps)|[_ [e He]]];
    [|congruence].
  rewrite (generateRepairGuide_planned env d f url plan items) in Hrun by done.
  unfold looped in Hrun.
  destruct (image_loop env (length items) 0 items []) as [log [generated|e]] eqn:Hloop;
    [|discriminate Hrun].
  injection Hrun as <-. simpl in Hi.
  destruct (image_loop_urls env _ _ _ _ _ _ Hloop) as (new & -> & Hnew).
  destruct (Hnew i t Hi) as (step & resp & first & others & img & H1 & H2 & H3 & H4 & H5).
  by exists plan, items, step, resp, first, others, img.
Qed.

(** The third step of the chair scenario. *)
Lemma image_url_wraps_first_image_chair :
  exists plan items step resp first others img,
    planOf Scenario.chair_env Scenario.chair_description Scenario.chair_photo
      = Some plan /\
    stepsOf plan = Some items /\
    items !! 2 = Some step /\
    generateImages Scenario.chair_env 2 (request_of step) = Return resp /\
    generatedImages resp = Some (first :: others) /\
    image first = Some img /\
    "data:image/jpeg;base64,AAAA" =
      "data:image/jpeg;base64," +:+
      match imageBytes img with
      | Some b => b
      | None => "undefined"
      end.
Proof.
  apply (image_url_wraps_first_image Scenario.chair_env
           Scenario.chair_description Scenario.chair_photo Scenario.chair_guide 2
           {| stepNumber := Some (JNum 3);
              description := Some (JStr "Clamp the leg for a day.");
              imageUrl := "data:image/jpeg;base64,AAAA" |});
    vm_compute; reflexivity.
Defined.

Lemma split_without_separator (c : ascii) (s : string) :
  occurs c s = false -> split c s = [s].
Proof.
  induction s as [|c' s IH]; [done|]. simpl.
  destruct (Ascii.eqb c' c); [done|]. simpl. intros H. by rewrite (IH H).
Qed.

Lemma split_at_first_separator (c : ascii) (header rest : string) :
  occurs c header = false ->
  split c (header +:+ String c rest) = header :: split c rest.
Proof.
  induction header as [|c' header IH]; simpl.
  - by rewrite Ascii.eqb_refl.
  - destruct (Ascii.eqb c' c); [done|]. simpl. intros H. by rewrite (IH H).
Qed.

(** [fileToBase64] gives the payload of a data URL: when the reader gives
    [header,payload] with no comma in the header and none in the payload,
    as with base64, the result is the payload alone. *)
Theorem fileToBase64_gives_payload (env : Env) (file : File)
    (header payload : string) :
  occurs "," header = false ->
  occurs "," payload = false ->
  readAsDataURL env file = Some (header +:+ String "," payload) ->
  fileToBase64 env file =
    ([FileRead file (Some (header +:+ String "," payload))],
     Return (Some payload)).
Proof.
  intros Hh Hp Hread. unfold fileToBase64. rewrite Hread.
  cbn -[split nth_error].
  by rewrite (split_at_first_separator _ _ _ Hh), (split_without_separator _ _ Hp).
Qed.

(** The data URL of the chair photo. *)
Lemma fileToBase64_gives_payload_chair :
  fileToBase64 Scenario.chair_env Scenario.chair_photo =
    ([FileRead Scenario.chair_photo
        (Some ("data:image/jpeg;base64" +:+ String "," "/9j/4AAQSkZJRg=="))],
     Return (Some "/9j/4AAQSkZJRg==")).
Proof.
  apply (fileToBase64_gives_payload Scenario.chair_env Scenario.chair_photo
           "data:image/jpeg;base64" "/9j/4AAQSkZJRg=="); reflexivity.
Defined.

(** When what the reader gives has no comma, [fileToBase64] resolves with
    undefined and does not reject; the run goes on to the planning call
    with no image data. *)
Theorem fileToBase64_without_comma (env : Env) (d : string) (file : File)
    (url : string) :
  occurs "," url = false ->
  truthy (API_KEY env) = true ->
  readAsDataURL env file = Some url ->
  fileToBase64 env file = ([FileRead file (Some url)], Return None) /\
  exists response,
    (generateRepairGuide env d file).1 !! 2 =
      Some (GenerateContent
              {| mimeType := type file; data := None; planningPrompt := d |}
              response).
Proof.
  intros Hc Hkey Hread.
  assert (Hnone : nth_error (split "," url) 1 = None).
  { by rewrite (split_without_separator _ _ Hc). }
  split.
  { unfold fileToBase64. rewrite Hread. cbn -[split nth_error]. by rewrite Hnone. }
  unfold generateRepairGuide, fileToBase64, getMimeType.
  rewrite Hkey, Hread. cbn -[trim nth_error split]. rewrite Hnone.
  destruct (generateContent env _) as [[text|]|e] eqn:Hg;
    cbn -[trim nth_error split]; [|by eexists..].
  destruct (JSON_parse env (trim text)) as [plan|]; cbn -[trim nth_error split];
    [|by eexists].
  destruct (get plan "steps") as [v|e]; cbn -[trim nth_error split]; [|by eexists].
  destruct (entries v) as [l [items|e]]; cbn -[trim nth_error split];
    [|by eexists].
  destruct (image_loop env (length items) 0 items []) as [log [generated|e]];
    cbn -[trim nth_error split]; [|by eexists].
  destruct (get plan "safetyWarning"); cbn -[trim nth_error split]; by eexists.
Qed.

(** An empty file read as [data:]. *)
Lemma fileToBase64_without_comma_empty :
  fileToBase64 Cases.commaless_env Cases.empty_file =
    ([FileRead Cases.empty_file (Some "data:")], Return None) /\
  exists response,
    (generateRepairGuide Cases.commaless_env Scenario.chair_description
       Cases.empty_file).1 !! 2 =
      Some (GenerateContent
              {| mimeType := type Cases.empty_file; data := None;
                 planningPrompt := Scenario.chair_description |}
              response).
Proof.
  apply (fileToBase64_without_comma Cases.commaless_env
           Scenario.chair_description Cases.empty_file "data:"); reflexivity.
Defined.

(** ** Further properties of the shell *)

(** With the description empty or no image selected, the generate handler
    stores the missing-input message and does nothing else: the
    orchestrator is not called, whatever the environment, the form stays
    and shows the message. *)
Theorem incomplete_form_is_not_submitted (env : Env) (auth : Auth0) (s : State) :
  problemDescription s = "" \/ imageFile s = None ->
  handleGenerateGuide env s = [setError (Some missing_input_message) s] /\
  (render auth s = Form ->
   render auth (after_generate env s) = Form /\
   shown_error auth (after_generate env s) = Some missing_input_message).
Proof.
  intros Hmissing.
  assert (Hone : handleGenerateGuide env s = [setError (Some missing_input_message) s]).
  { unfold handleGenerateGuide.
    destruct Hmissing as [-> | ->]; [done|].
    by destruct (problemDescription s). }
  split; [exact Hone|].
  intros Hform. unfold after_generate. rewrite Hone. simpl.
  unfold shown_error.
  change (render auth (setError (Some missing_input_message) s)) with (render auth s).
  by rewrite Hform.
Qed.

(** The empty form of a signed-in user. *)
Lemma incomplete_form_is_not_submitted_initial :
  handleGenerateGuide Scenario.chair_env initial
    = [setError (Some missing_input_message) initial] /\
  (render Scenario.signed_in initial = Form ->
   render Scenario.signed_in (after_generate Scenario.chair_env initial) = Form /\
   shown_error Scenario.signed_in (after_generate Scenario.chair_env initial)
     = Some missing_input_message).
Proof.
  apply (incomplete_form_is_not_submitted Scenario.chair_env Scenario.signed_in
           initial).
  left. reflexivity.
Defined.

Lemma progress_messages (log : list event) :
  forall s, map loadingMessage (progress log s) = messages log.
Proof.
  induction log as [|e log IH]; intros s; [done|].
  destruct e; simpl; by rewrite ?IH.
Qed.

(** While the orchestrator runs on a complete form, the shell is loading:
    in every state before the last the loading flag is set, there is no
    guide and no error, and a signed-in user sees the spinner; the loading
    messages are the starting message and then the progress messages of the
    orchestrator, in order. *)
Theorem shell_is_loading_during_the_run (env : Env) (s : State) (file : File)
    (c : ascii) (rest : string) :
  problemDescription s = String c rest ->
  imageFile s = Some file ->
  exists during settled,
    handleGenerateGuide env s = during ++ [settled] /\
    map loadingMessage during =
      starting_message
      :: messages (generateRepairGuide env (problemDescription s) file).1 /\
    Forall (fun t =>
              isLoading t = true /\ guide t = None /\ error t = None /\
              forall auth,
                isAuthLoading auth = false -> isAuthenticated auth = true ->
                render auth t = Loading)
           during.
Proof.
  intros Hd Hf.
  rewrite (handleGenerateGuide_complete env s file c rest Hd Hf). cbv zeta.
  set (started := unmounted _).
  set (log := (generateRepairGuide env (problemDescription s) file).1).
  eexists (started :: progress log started), _.
  split; [reflexivity|]. split.
  { simpl. by rewrite progress_messages. }
  assert (Hall : forall t,
    isLoading t = true /\ guide t = None /\ error t = None ->
    isLoading t = true /\ guide t = None /\ error t = None /\
    forall auth,
      isAuthLoading auth = false -> isAuthenticated auth = true ->
      render auth t = Loading).
  { intros t (Hl & Hg & He). do 3 (split; [done|]).
    intros auth Hal Hau. unfold render. by rewrite Hal, Hau, Hl, Hg. }
  constructor; [by apply Hall|].
  eapply Forall_impl; [apply progress_keeps_slots|].
  intros t (_ & _ & _ & Hg & Hl & He & _). apply Hall.
  by rewrite Hg, Hl, He.
Qed.

(** The chair scenario from a complete form. *)
Lemma shell_is_loading_during_the_run_chair :
  exists during settled,
    handleGenerateGuide Scenario.chair_env Cases.complete_form
      = during ++ [settled] /\
    map loadingMessage during =
      starting_message
      :: messages (generateRepairGuide Scenario.chair_env
                     (problemDescription Cases.complete_form)
                     Scenario.chair_photo).1 /\
    Forall (fun t =>
              isLoading t = true /\ guide t = None /\ error t = None /\
              forall auth,
                isAuthLoading auth = false -> isAuthenticated auth = true ->
                render auth t = Loading)
           during.
Proof.
  apply (shell_is_loading_during_the_run Scenario.chair_env Cases.complete_form
           Scenario.chair_photo "C"%char "racked wooden chair leg");
    reflexivity.
Defined.

Lemma handleGenerateGuide_inputs (env : Env) (s t : State) :
  t ∈ handleGenerateGuide env s ->
  problemDescription t = problemDescription s /\
  imageFile t = imageFile s /\
  previewUrl t = previewUrl s.
Proof.
  unfold handleGenerateGuide.
  destruct (problemDescription s) as [|c rest] eqn:Hd.
  { intros ->%list_elem_of_singleton. simpl. by rewrite Hd. }
  destruct (imageFile s) as [file|] eqn:Hf.
  2:{ intros ->%list_elem_of_singleton. simpl. by rewrite Hd, Hf. }
  destruct (generateRepairGuide env (String c rest) file) as [log outcome].
  set (started := unmounted _).
  assert (Hrunning : forall u, u ∈ progress log started ->
                     problemDescription u = problemDescription s /\
                     imageFile u = imageFile s /\
                     previewUrl u = previewUrl s).
  { intros u Hu. pose proof (progress_keeps_slots log started) as Hall.
    rewrite Forall_forall in Hall. destruct (Hall u Hu) as (H1 & H2 & H3 & _).
    by rewrite H1, H2, H3. }
  assert (Hlast : problemDescription (List.last (progress log started) started)
                    = problemDescription s /\
                  imageFile (List.last (progress log started) started) = imageFile s /\
                  previewUrl (List.last (progress log started) started) = previewUrl s).
  { destruct (progress log started) as [|u l] eqn:Hp; [done|].
    apply Hrunning.
    destruct (exists_last (l:=u :: l)) as (l' & a & Heq); [done|].
    rewrite Heq, last_last. apply elem_of_app. right. by left. }
  rewrite Hd, Hf in *.
  intros [->|Hin]%elem_of_cons; [done|].
  apply elem_of_app in Hin as [Hin| ->%list_elem_of_singleton]; [by apply Hrunning|].
  destruct outcome; simpl; exact Hlast.
Qed.

(** The generate handler never changes what the user entered: in every
    state it goes through, the description, the image and the preview are
    those it started from, so a failed run can be tried again as it is.
    The file input is not kept: on a complete form it is away in the
    states that are loading or hold a guide, and is a new, empty input
    when the form is back. *)
Theorem generate_keeps_the_inputs (env : Env) (s t : State) :
  t ∈ handleGenerateGuide env s ->
  problemDescription t = problemDescription s /\
  imageFile t = imageFile s /\
  previewUrl t = previewUrl s /\
  (problemDescription s <> "" -> imageFile s <> None ->
   fileInputRef t =
     match guide t, isLoading t with
     | None, false => Some ""
     | _, _ => None
     end).
Proof.
  intros Ht.
  destruct (handleGenerateGuide_inputs env s t Ht) as (H1 & H2 & H3).
  do 3 (split; [done|]). intros Hd Hf.
  destruct (problemDescription s) as [|c rest] eqn:Hd'; [done|].
  destruct (imageFile s) as [file|] eqn:Hf'; [|done].
  rewrite (handleGenerateGuide_complete env s file c rest Hd' Hf') in Ht.
  cbv zeta in Ht.
  set (started := unmounted _) in Ht.
  apply elem_of_cons in Ht as [->|Ht]; [done|].
  apply elem_of_app in Ht as [Ht| ->%list_elem_of_singleton].
  - pose proof (progress_keeps_slots
                  (generateRepairGuide env (problemDescription s) file).1 started)
      as Hall.
    rewrite Forall_forall in Hall.
    destruct (Hall t Ht) as (_ & _ & _ & Hg & Hl & _ & Hr).
    by rewrite Hg, Hl, Hr.
  - by destruct ((generateRepairGuide env (problemDescription s) file).2).
Qed.

(** The last state of the failing scenario. *)
Lemma generate_keeps_the_inputs_second :
  let t := after_generate Scenario.second_fails_env Cases.complete_form in
  problemDescription t = problemDescription Cases.complete_form /\
  imageFile t = imageFile Cases.complete_form /\
  previewUrl t = previewUrl Cases.complete_form /\
  fileInputRef t = Some "".
Proof.
  destruct (generate_keeps_the_inputs Scenario.second_fails_env
              Cases.complete_form
              (after_generate Scenario.second_fails_env Cases.complete_form))
    as (H1 & H2 & H3 & H4).
  - vm_compute. do 4 right. left.
  - do 3 (split; [assumption|]). apply H4; discriminate.
Defined.

(** The file handler at large: a file is taken, whatever its type, exactly
    when it has at most 4194304 bytes, and then the image and its preview
    are replaced and the error cleared; a larger file sets the error alone;
    a change event without a file changes nothing; and in no case does the
    handler touch the description, the guide, the loading flag or the
    loading message. *)
Theorem file_is_taken_up_to_the_limit (createObjectURL : File -> string)
    (s : State) (file : File) :
  let s' := handleFileChange createObjectURL (Some file) s in
  (imageFile s', previewUrl s', error s') =
    (if (size file <=? 4194304)%N
     then (Some file, Some (createObjectURL file), None)
     else (imageFile s, previewUrl s, Some too_large_message)) /\
  (problemDescription s', guide s', isLoading s', loadingMessage s', fileInputRef s') =
    (problemDescription s, guide s, isLoading s, loadingMessage s, fileInputRef s) /\
  handleFileChange createObjectURL None s = s.
Proof.
  intros s'. subst s'. rewrite handleFileChange_size.
  by destruct (size file <=? 4194304)%N.
Qed.

(** A rejected file does not disturb an accepted one: after a file within
    the limit and then one above it, the image and the preview are still
    those of the first, and only the error says that the second was
    refused; a later file within the limit replaces both and clears the
    error. *)
Theorem rejected_file_keeps_the_selection (createObjectURL : File -> string)
    (s : State) (first second third : File) :
  (size first <= 4194304)%N ->
  (4194304 < size second)%N ->
  (size third <= 4194304)%N ->
  let s1 := handleFileChange createObjectURL (Some first) s in
  let s2 := handleFileChange createObjectURL (Some second) s1 in
  let s3 := handleFileChange createObjectURL (Some third) s2 in
  imageFile s2 = Some first /\
  previewUrl s2 = Some (createObjectURL first) /\
  error s2 = Some too_large_message /\
  imageFile s3 = Some third /\
  previewUrl s3 = Some (createObjectURL third) /\
  error s3 = None.
Proof.
  intros H1 H2 H3 s1 s2 s3. subst s1 s2 s3.
  rewrite !handleFileChange_size.
  destruct (N.leb_spec (size first) 4194304); [|lia].
  destruct (N.leb_spec (size second) 4194304); [lia|].
  destruct (N.leb_spec (size third) 4194304); [|lia].
  by simpl.
Qed.

(** The chair photo, a file of five million bytes, the chair photo again. *)
Lemma rejected_file_keeps_the_selection_chair :
  let s1 := handleFileChange Scenario.blob_url (Some Scenario.chair_photo) initial in
  let s2 := handleFileChange Scenario.blob_url (Some Cases.large_photo) s1 in
  let s3 := handleFileChange Scenario.blob_url (Some Scenario.chair_photo) s2 in
  imageFile s2 = Some Scenario.chair_photo /\
  previewUrl s2 = Some (Scenario.blob_url Scenario.chair_photo) /\
  error s2 = Some too_large_message /\
  imageFile s3 = Some Scenario.chair_photo /\
  previewUrl s3 = Some (Scenario.blob_url Scenario.chair_photo) /\
  error s3 = None.
Proof.
  apply (rejected_file_keeps_the_selection Scenario.blob_url initial
           Scenario.chair_photo Cases.large_photo Scenario.chair_photo);
    vm_compute; congruence.
Defined.

(** After a reset the form is empty for the generate handler too: the
    handler stores the missing-input message and calls no service,
    whatever state the reset was made from; and a second reset changes
    nothing. *)
Theorem reset_then_generate_is_refused (env : Env) (s : State) :
  handleGenerateGuide env (handleReset s) =
    [setError (Some missing_input_message) (handleReset s)] /\
  handleReset (handleReset s) = handleReset s.
Proof.
  split; [reflexivity|].
  unfold handleReset, clearFileInput. simpl. by destruct (fileInputRef s).
Qed.

(** The generate button and the handler agree: when the button is enabled
    the handler passes its own validation and starts the run with the
    loading flag set and the error cleared; when the form is idle and the
    button is disabled, the handler would store the missing-input
    message. *)
Theorem enabled_button_starts_the_run (env : Env) (s : State) :
  (generate_disabled s = false ->
   exists started later,
     handleGenerateGuide env s = started :: later /\
     later <> [] /\
     isLoading started = true /\ error started = None /\ guide started = None) /\
  (generate_disabled s = true -> isLoading s = false ->
   handleGenerateGuide env s = [setError (Some missing_input_message) s]).
Proof.
  unfold generate_disabled, handleGenerateGuide. split.
  - destruct (problemDescription s) as [|c rest]; [done|].
    destruct (imageFile s) as [file|]; [|done]. simpl. intros _.
    destruct (generateRepairGuide env (String c rest) file) as [log outcome].
    eexists _, _. split; [reflexivity|]. split; [|done].
    by destruct (progress log _).
  - intros Hdis Hl. rewrite Hl, orb_false_r in Hdis.
    destruct (problemDescription s) as [|c rest]; [done|].
    by destruct (imageFile s).
Qed.

(** A complete, idle form; the empty form. *)
Lemma enabled_button_starts_the_run_chair :
  (exists started later,
     handleGenerateGuide Scenario.chair_env Cases.complete_form = started :: later /\
     later <> [] /\
     isLoading started = true /\ error started = None /\ guide started = None) /\
  handleGenerateGuide Scenario.chair_env initial
    = [setError (Some missing_input_message) initial].
Proof.
  split.
  - apply (enabled_button_starts_the_run Scenario.chair_env Cases.complete_form).
    reflexivity.
  - apply (enabled_button_starts_the_run Scenario.chair_env initial); reflexivity.
Defined.

(** What every reachable state satisfies: the loading flag and a guide
    never go together, a preview is there exactly when an image is, and
    the loading message is empty whenever the flag is down. *)
Lemma reachable_invariant (s : State) :
  reachable s ->
  (isLoading s = true -> guide s = None) /\
  (present (imageFile s) = present (previewUrl s)) /\
  (isLoading s = false -> loadingMessage s = "").
Proof.
  induction 1 as [|v s _ IH|url file s _ IH|env s t Hs IH Ht|s _ IH|v s _ IH];
    try done.
  - destruct file as [file|]; [|done]. simpl.
    destruct (4 * 1024 * 1024 <? size file)%N; simpl; [done|].
    destruct IH as (H1 & _ & H3). by repeat split.
  - destruct IH as (H1 & H2 & H3).
    destruct (handleGenerateGuide_inputs env s t Ht) as (_ & Hi & Hp).
    rewrite Hi, Hp. split; [|split; [done|]].
    + revert Ht. unfold handleGenerateGuide.
      destruct (problemDescription s) as [|c rest].
      { intros ->%list_elem_of_singleton. exact H1. }
      destruct (imageFile s) as [file|].
      2:{ intros ->%list_elem_of_singleton. exact H1. }
      destruct (generateRepairGuide env (String c rest) file) as [log outcome].
      intros [->|Hin]%elem_of_cons; [done|].
      apply elem_of_app in Hin as [Hin| ->%list_elem_of_singleton]; [|done].
      pose proof (progress_keeps_slots log
        (unmounted
           (setLoadingMessage starting_message
              (setGuide None (setIsLoading true (setError None s)))))) as Hall.
      rewrite Forall_forall in Hall.
      destruct (Hall t Hin) as (_ & _ & _ & Hg & _). by rewrite Hg.
    + revert Ht. unfold handleGenerateGuide.
      destruct (problemDescription s) as [|c rest].
      { intros ->%list_elem_of_singleton. exact H3. }
      destruct (imageFile s) as [file|].
      2:{ intros ->%list_elem_of_singleton. exact H3. }
      destruct (generateRepairGuide env (String c rest) file) as [log outcome].
      intros [->|Hin]%elem_of_cons; [done|].
      apply elem_of_app in Hin as [Hin| ->%list_elem_of_singleton]; [|done].
      pose proof (progress_keeps_slots log
        (unmounted
           (setLoadingMessage starting_message
              (setGuide None (setIsLoading true (setError None s)))))) as Hall.
      rewrite Forall_forall in Hall.
      destruct (Hall t Hin) as (_ & _ & _ & _ & Hl & _). rewrite Hl. done.
  - destruct IH as (H1 & H2 & H3). simpl. by repeat split.
Qed.

(** The page of a signed-in user shows, in every reachable state, exactly
    one of its three blocks: the form, the spinner or the guide. *)
Theorem reachable_views_are_exclusive (auth : Auth0) (s : State) :
  reachable s ->
  isAuthLoading auth = false ->
  isAuthenticated auth = true ->
  render auth s = Form \/ render auth s = Loading \/ render auth s = Result.
Proof.
  intros Hs Hal Hau. destruct (reachable_invariant s Hs) as (Hg & _ & _).
  unfold render. rewrite Hal, Hau. simpl.
  destruct (isLoading s).
  - rewrite (Hg eq_refl). right. by left.
  - destruct (guide s); [by right; right|by left].
Qed.

(** The state after a failed run from a form filled in step by step. *)
Lemma reachable_views_are_exclusive_second :
  let filled :=
    (handleFileChange Scenario.blob_url (Some Scenario.chair_photo)
       (setFileInputRef (Some "chair.jpg")
          (setProblemDescription Scenario.chair_description initial))) in
  let s := after_generate Scenario.second_fails_env filled in
  render Scenario.signed_in s = Form \/
  render Scenario.signed_in s = Loading \/
  render Scenario.signed_in s = Result.
Proof.
  apply (reachable_views_are_exclusive Scenario.signed_in
           (after_generate Scenario.second_fails_env
              (handleFileChange Scenario.blob_url (Some Scenario.chair_photo)
       (setFileInputRef (Some "chair.jpg")
          (setProblemDescription Scenario.chair_description initial)))));
    [|reflexivity..].
  apply (reach_generate Scenario.second_fails_env
           (handleFileChange Scenario.blob_url (Some Scenario.chair_photo)
              (setFileInputRef (Some "chair.jpg")
                 (setProblemDescription Scenario.chair_description initial)))).
  - apply reach_file, reach_ref, reach_description, reach_initial.
  - vm_compute. do 4 right. left.
Defined.

(** In every reachable state there is a preview exactly when there is a
    selected image. *)
Theorem reachable_preview_matches_image (s : State) :
  reachable s ->
  present (imageFile s) = present (previewUrl s).
Proof. intros Hs. by destruct (reachable_invariant s Hs) as (_ & H & _). Qed.

(** The state after a rejected file on the empty form. *)
Lemma reachable_preview_matches_image_large :
  let s := handleFileChange Scenario.blob_url (Some Cases.large_photo) initial in
  present (imageFile s) = present (previewUrl s).
Proof.
  apply (reachable_preview_matches_image
           (handleFileChange Scenario.blob_url (Some Cases.large_photo) initial)).
  apply reach_file, reach_initial.
Defined.

(** In every reachable state that is not loading the loading message is
    empty: no message of a finished run is left behind. *)
Theorem reachable_idle_has_no_message (s : State) :
  reachable s ->
  isLoading s = false ->
  loadingMessage s = "".
Proof. intros Hs. by destruct (reachable_invariant s Hs) as (_ & _ & H). Qed.

(** The state after a successful run from a form filled in step by step. *)
Lemma reachable_idle_has_no_message_chair :
  let filled :=
    (handleFileChange Scenario.blob_url (Some Scenario.chair_photo)
       (setFileInputRef (Some "chair.jpg")
          (setProblemDescription Scenario.chair_description initial))) in
  loadingMessage (after_generate Scenario.chair_env filled) = "".
Proof.
  apply (reachable_idle_has_no_message
           (after_generate Scenario.chair_env
              (handleFileChange Scenario.blob_url (Some Scenario.chair_photo)
       (setFileInputRef (Some "chair.jpg")
          (setProblemDescription Scenario.chair_description initial)))));
    [|reflexivity].
  apply (reach_generate Scenario.chair_env
           (handleFileChange Scenario.blob_url (Some Scenario.chair_photo)
              (setFileInputRef (Some "chair.jpg")
                 (setProblemDescription Scenario.chair_description initial)))).
  - apply reach_file, reach_ref, reach_description, reach_initial.
  - vm_compute. do 5 right. left.
Defined.
